(** * velodyne_pointcloud: the conversion node (convert.cc)

    A shallow embedding of [Convert::paramCallback] and
    [Convert::processScan] from
    src/velodyne_pointcloud/src/conversions/convert.cc, and the properties
    of the scan segmenter, the demand-gated view composer and the
    reconfiguration handler that the specification states about them.

    The node is stateful C++: its members are the fields of the record
    [Convert], a callback is a computation in a state-and-abort monad, and
    every call to a collaborator (decoder, extractors, publishers) is
    recorded in a trace, so that "this computation was not performed" is a
    statement about the trace. *)

From Stdlib Require Import String.
From Stdlib Require Import ZArith List Lia Bool Floats Permutation Sorted.
From Equations Require Import Equations.
Import ListNotations.
Local Open Scope Z_scope.

Set Implicit Arguments.

Declare Scope monad_scope.
Delimit Scope monad_scope with monad.

(* ===================================================================== *)
(** ** C++ conversions used by the node *)
(* ===================================================================== *)

Module Cxx.

(** [(uint16_t) e] for an integer [e]: reduction modulo 2^16. *)
Definition to_uint16 (z : Z) : Z := z mod 65536.

(** [(uint32_t) e], as in the assignment of a [size_t] to a cloud's
    [width]: reduction modulo 2^32. *)
Definition to_uint32 (z : Z) : Z := z mod 4294967296.

(** [static_cast<int>] of a 64-bit integer: two's complement wrap. *)
Definition to_int32 (z : Z) : Z := (z + 2147483648) mod 4294967296 - 2147483648.

(** [a % b] on [int]: the remainder has the sign of the dividend. *)
Definition rem (a b : Z) : Z := Z.rem a b.

(** The magnitude [m * 2^e] of a finite binary64 value, rounded to an
    integer: to nearest with ties away from zero ([half = true], the
    C function [round]) or toward zero ([half = false], a
    floating-to-integer conversion). *)
Definition integral_magnitude (half : bool) (m : positive) (e : Z) : Z :=
  match e with
  | Z0 => Zpos m
  | Zpos k => Zpos m * 2 ^ Zpos k
  | Zneg k =>
      let q := 2 ^ Zpos k in
      if half then (2 * Zpos m + q) / (2 * q) else Zpos m / q
  end.

Definition integral (half : bool) (d : float) : option Z :=
  match Prim2SF d with
  | S754_zero _ => Some 0
  | S754_finite s m e =>
      let mag := integral_magnitude half m e in
      Some (if s then - mag else mag)
  | S754_infinity _ | S754_nan => None
  end.

(** [(uint16_t) round(d)]: [None] when the rounded value is not
    representable in [uint16_t] (or [d] is not finite), where the
    conversion has undefined behaviour. *)
Definition round_to_uint16 (d : float) : option Z :=
  match integral true d with
  | Some r => if (0 <=? r) && (r <=? 65535) then Some r else None
  | None => None
  end.

(** Conversion of a [double] to a 64-bit signed integer, as
    [std::chrono::duration_cast] does on the tick count. *)
Definition trunc_to_int64 (d : float) : option Z :=
  match integral false d with
  | Some r =>
      if (- 9223372036854775808 <=? r) && (r <=? 9223372036854775807)
      then Some r else None
  | None => None
  end.

(** [static_cast<float>(d)]: the binary64 value is rounded to binary32
    (24-bit significand, exponents up to 128); the result is carried as
    the binary64 value that represents it exactly. *)
Definition static_cast_float (d : float) : float :=
  match Prim2SF d with
  | S754_finite s m e => SF2Prim (binary_round 24 128 s m e)
  | _ => d
  end.

End Cxx.

(* ===================================================================== *)
(** ** [std::vector] as a list, last element at the end *)
(* ===================================================================== *)

Module Vector.
Section Ops.
Context {A : Type}.

Definition size (v : list A) : Z := Z.of_nat (List.length v).

(** [v.back()]: [None] on an empty vector, where the C++ call is an
    access outside the vector (undefined behaviour). *)
Definition back (v : list A) : option A := List.last (List.map Some v) None.

(** [v.front()], [None] on an empty vector likewise. *)
Definition front (v : list A) : option A := List.hd_error v.

Definition push_back (v : list A) (a : A) : list A := v ++ [a].

Definition pop_back (v : list A) : list A := List.removelast v.

(** [v.at(i) = a]: [None] when [i] is not below the size
    ([std::out_of_range] is thrown). *)
Fixpoint at_put (v : list A) (i : nat) (a : A) : option (list A) :=
  match v, i with
  | [], _ => None
  | _ :: v', O => Some (a :: v')
  | b :: v', S i' => option_map (cons b) (at_put v' i' a)
  end.

(** [dst.insert(dst.end(), src.begin(), src.end())]. *)
Definition insert_end (dst src : list A) : list A := dst ++ src.
End Ops.
End Vector.
Import Vector.

(* ===================================================================== *)
(** ** Data model *)
(* ===================================================================== *)

(** Modelled from the spec: the point type [PointXYZIRADT] is declared in
    pointcloudXYZIRADT.h, which is not among the sources.  The fields
    follow the PointRecord of the specification: the azimuth is an integer
    in hundredths of a degree, the time stamp a [double] in seconds. *)
Record PointXYZIRADT : Type := mkPoint {
  x : float;
  y : float;
  z : float;
  intensity : float;
  return_type : Z;
  ring : Z;
  azimuth : Z;
  distance : float;
  time_stamp : float
}.

(** [pcl::PCLHeader]. *)
Record PCLHeader : Type := mkPCLHeader {
  seq : Z;
  stamp : Z;
  frame_id : string
}.

(** [pcl::PointCloud<PointXYZIRADT>]. *)
Record PointCloud : Type := mkCloud {
  header : PCLHeader;
  points : list PointXYZIRADT;
  width : Z;
  height : Z
}.

(** A default-constructed [pcl::PointCloud]: no point, width and height 0. *)
Definition new_PointCloud : PointCloud :=
  {| header := {| seq := 0; stamp := 0; frame_id := EmptyString |};
     points := []; width := 0; height := 0 |}.

(** [std_msgs::msg::Header]. *)
Record Header : Type := mkHeader {
  stamp_sec : Z;
  stamp_nanosec : Z;
  header_frame_id : string
}.

(** [rclcpp::Parameter]: a name and a typed value. *)
Inductive ParameterValue : Type :=
| PARAMETER_BOOL (b : bool)
| PARAMETER_INTEGER (i : Z)
| PARAMETER_DOUBLE (d : float)
| PARAMETER_STRING (s : string)
| PARAMETER_DOUBLE_ARRAY (ds : list float).

Record rclcpp_Parameter : Type := mkParameter {
  get_name : string;
  get_parameter_value : ParameterValue
}.

(** [rcl_interfaces::msg::SetParametersResult]. *)
Record SetParametersResult : Type := mkResult {
  successful : bool;
  reason : string
}.

(** The [Config] member of the node. *)
Record Config : Type := mkConfig {
  min_range : float;
  max_range : float;
  view_direction : float;
  view_width : float;
  scan_phase : float
}.

(** Modelled from the spec: [velodyne_rawdata::RawData], the point decoder
    behind [data_], is declared and defined outside the sources.  It keeps
    the range and view limits that [setParameters] pushes to it
    ("setRangeAndView(minRange, maxRange, viewDirection, viewWidth) to push
    configuration before decoding") and knows the number of lasers
    ("numLasers() -> integer for sizing per-ring arrays"). *)
Module RawData.
Record t : Type := mk {
  min_range : float;
  max_range : float;
  view_direction : float;
  view_width : float;
  num_lasers : nat
}.
Definition setParameters (d : t) (mn mx dir wd : float) : t :=
  {| min_range := mn; max_range := mx; view_direction := dir;
     view_width := wd; num_lasers := num_lasers d |}.
Definition getMinRange (d : t) : float := min_range d.
Definition getMaxRange (d : t) : float := max_range d.
Definition getNumLasers (d : t) : nat := num_lasers d.
End RawData.

(** The collaborators of the node whose code is outside convert.cc: the
    decoder's [unpack_all], the extraction functions of func.h, and the
    header and time conversions of pcl_conversions.  A test double is an
    instance of this class. *)
Class Collaborators : Type := {
  VelodynePacket : Type;
  PointCloudXYZIR : Type;
  (** the points that [RawData::unpack_all] appends to the cloud it is given *)
  unpack_all : RawData.t -> list VelodynePacket -> list PointXYZIRADT;
  extractValidPoints : PointCloud -> float -> float -> PointCloud;
  sortZeroIndex : PointCloud -> nat -> PointCloud;
  extractInvalidNearPointsFiltered :
    PointCloud -> list float -> nat -> Z -> PointCloud;
  convert : PointCloud -> PointCloudXYZIR;
  (** [pcl_conversions::toPCL] on a message header *)
  toPCL_header : Header -> PCLHeader;
  (** [pcl_conversions::toPCL(rclcpp::Time(ns))] on a count of nanoseconds *)
  toPCL_time : Z -> Z
}.

(** The publishers of the node, one per output. *)
Inductive Publisher : Type :=
| velodyne_points_pub_
| velodyne_points_ex_pub_
| velodyne_points_invalid_near_pub_
| velodyne_points_combined_ex_pub_
| marker_array_pub_.

(** What one processing cycle observes of the publish sink: the answer of
    [pub->get_subscription_count()] at each query, numbered from 0 within
    the cycle in the order the code asks.  The code asks again at every
    test, so the answers may differ during one cycle. *)
Definition Sink : Type := Publisher -> nat -> nat.

(** The members of [Convert] that the two callbacks touch. *)
Record Convert : Type := mkConvert {
  config_ : Config;
  num_points_threshold_ : Z;
  invalid_intensity_array_ : list float;
  data_ : RawData.t;
  _overflow_buffer : PointCloud;
  save_test_vector_ : bool;
  convert_frame_id_ : Z
}.

Section Node.
Context {ext : Collaborators}.

(** [velodyne_msgs::msg::VelodyneScan]. *)
Record VelodyneScan : Type := mkScan {
  scan_header : Header;
  packets : list VelodynePacket
}.

Inductive Message : Type :=
| PointCloud2_XYZIR (c : PointCloudXYZIR)
| PointCloud2_XYZIRADT (c : PointCloud)
| MarkerArray (h : Header).

(** Calls that leave the node, in the order they are made. *)
Inductive call : Type :=
| call_setParameters (mn mx dir wd : float)
| call_unpack_all (pk : list VelodynePacket)
| call_writeInPackets (frame : Z)
| call_writeOutPointClouds (frame : Z) (c : PointCloud)
| call_extractValidPoints (c : PointCloud) (mn mx : float)
| call_sortZeroIndex (c : PointCloud) (n : nat)
| call_extractInvalidNearPointsFiltered
    (c : PointCloud) (a : list float) (n : nat) (threshold : Z)
| call_convert (c : PointCloud)
| call_publish (p : Publisher) (m : Message).

(** The node together with what an observer records of a callback: the
    calls made so far and the number of subscription-count queries. *)
Record World : Type := mkWorld {
  node : Convert;
  trace : list call;
  queries : nat
}.

(** Ways a callback stops before its end.  The last two are C++
    exceptions: the callback ends where they are thrown.  The first three
    are operations that C++ leaves undefined.  The model stops at the first
    of them that a callback reaches and follows the execution no further:
    [Aborts] with one of the three says that the callback reaches that
    operation, and says nothing of what a build of the node does after
    it. *)
Inductive fault : Type :=
| EmptyBack              (* back() on an empty vector: undefined behaviour *)
| EmptyFront             (* front() on an empty vector: undefined behaviour *)
| FloatToInteger         (* conversion of an unrepresentable double: undefined behaviour *)
| OutOfRange             (* vector::at throws std::out_of_range *)
| ParameterTypeException (* rclcpp::Parameter::get_value on another type throws *).

Inductive outcome (A : Type) : Type :=
| Returns (a : A) (w : World)
| Aborts (f : fault) (w : World).
Arguments Aborts {A} f w.

Definition M (A : Type) : Type := World -> outcome A.

Definition ret {A} (a : A) : M A := fun w => Returns a w.

Definition bind {A B} (m : M A) (k : A -> M B) : M B :=
  fun w => match m w with
           | Returns a w' => k a w'
           | Aborts f w' => Aborts f w'
           end.

Definition abort {A} (f : fault) : M A := fun w => Aborts f w.

Definition gets {A} (f : Convert -> A) : M A := fun w => Returns (f (node w)) w.

Definition modify (f : Convert -> Convert) : M unit :=
  fun w => Returns tt {| node := f (node w); trace := trace w; queries := queries w |}.

Definition emit (c : call) : M unit :=
  fun w => Returns tt {| node := node w; trace := trace w ++ [c]; queries := queries w |}.

(** A partial operation: [None] aborts with the given fault. *)
Definition defined {A} (f : fault) (o : option A) : M A :=
  match o with Some a => ret a | None => abort f end.

Definition world_of {A} (o : outcome A) : World :=
  match o with Returns _ w => w | Aborts _ w => w end.


Notation "x <- m ;; k" := (bind m (fun x => k))
  (at level 100, m at next level, right associativity) : monad_scope.
Notation "m ;;; k" := (bind m (fun _ => k))
  (at level 100, right associativity) : monad_scope.
Local Open Scope monad_scope.

(** [a || b] on two calls: [b] is not made when [a] returns true. *)
Definition orelse (a b : M bool) : M bool :=
  r <- a ;; if r then ret true else b.

(* --------------------------------------------------------------------- *)
(** *** Reconfiguration handler: [paramCallback] (lines 30-42, 166-208) *)
(* --------------------------------------------------------------------- *)

Definition set_min_range (v : float) (c : Config) : Config :=
  {| min_range := v; max_range := max_range c; view_direction := view_direction c;
     view_width := view_width c; scan_phase := scan_phase c |}.
Definition set_max_range (v : float) (c : Config) : Config :=
  {| min_range := min_range c; max_range := v; view_direction := view_direction c;
     view_width := view_width c; scan_phase := scan_phase c |}.
Definition set_view_direction (v : float) (c : Config) : Config :=
  {| min_range := min_range c; max_range := max_range c; view_direction := v;
     view_width := view_width c; scan_phase := scan_phase c |}.
Definition set_view_width (v : float) (c : Config) : Config :=
  {| min_range := min_range c; max_range := max_range c; view_direction := view_direction c;
     view_width := v; scan_phase := scan_phase c |}.
Definition set_scan_phase (v : float) (c : Config) : Config :=
  {| min_range := min_range c; max_range := max_range c; view_direction := view_direction c;
     view_width := view_width c; scan_phase := v |}.

Definition on_config (f : Config -> Config) (n : Convert) : Convert :=
  {| config_ := f (config_ n); num_points_threshold_ := num_points_threshold_ n;
     invalid_intensity_array_ := invalid_intensity_array_ n; data_ := data_ n;
     _overflow_buffer := _overflow_buffer n; save_test_vector_ := save_test_vector_ n;
     convert_frame_id_ := convert_frame_id_ n |}.
Definition set_num_points_threshold (v : Z) (n : Convert) : Convert :=
  {| config_ := config_ n; num_points_threshold_ := v;
     invalid_intensity_array_ := invalid_intensity_array_ n; data_ := data_ n;
     _overflow_buffer := _overflow_buffer n; save_test_vector_ := save_test_vector_ n;
     convert_frame_id_ := convert_frame_id_ n |}.
Definition set_invalid_intensity_array (v : list float) (n : Convert) : Convert :=
  {| config_ := config_ n; num_points_threshold_ := num_points_threshold_ n;
     invalid_intensity_array_ := v; data_ := data_ n;
     _overflow_buffer := _overflow_buffer n; save_test_vector_ := save_test_vector_ n;
     convert_frame_id_ := convert_frame_id_ n |}.
Definition set_data (v : RawData.t) (n : Convert) : Convert :=
  {| config_ := config_ n; num_points_threshold_ := num_points_threshold_ n;
     invalid_intensity_array_ := invalid_intensity_array_ n; data_ := v;
     _overflow_buffer := _overflow_buffer n; save_test_vector_ := save_test_vector_ n;
     convert_frame_id_ := convert_frame_id_ n |}.
Definition set_overflow_buffer (v : PointCloud) (n : Convert) : Convert :=
  {| config_ := config_ n; num_points_threshold_ := num_points_threshold_ n;
     invalid_intensity_array_ := invalid_intensity_array_ n; data_ := data_ n;
     _overflow_buffer := v; save_test_vector_ := save_test_vector_ n;
     convert_frame_id_ := convert_frame_id_ n |}.
Definition set_convert_frame_id (v : Z) (n : Convert) : Convert :=
  {| config_ := config_ n; num_points_threshold_ := num_points_threshold_ n;
     invalid_intensity_array_ := invalid_intensity_array_ n; data_ := data_ n;
     _overflow_buffer := _overflow_buffer n; save_test_vector_ := save_test_vector_ n;
     convert_frame_id_ := v |}.

(** [Parameter::get_value<double>()], [get_value<int>()] and
    [as_double_array()]: [None] where rclcpp throws on a value of another
    type. *)
Definition get_value_double (it : rclcpp_Parameter) : option float :=
  match get_parameter_value it with PARAMETER_DOUBLE d => Some d | _ => None end.
Definition get_value_int (it : rclcpp_Parameter) : option Z :=
  match get_parameter_value it with
  | PARAMETER_INTEGER i => Some (Cxx.to_int32 i)
  | _ => None
  end.
Definition as_double_array (it : rclcpp_Parameter) : option (list float) :=
  match get_parameter_value it with PARAMETER_DOUBLE_ARRAY ds => Some ds | _ => None end.

(** [std::find_if] over the parameters, by name. *)
Definition find_name (p : list rclcpp_Parameter) (name : string) : option rclcpp_Parameter :=
  List.find (fun parameter => String.eqb (get_name parameter) name) p.

(** [get_param(p, name, value)], lines 31-42: when a parameter of that
    name is in [p], its value is assigned to the member [value] refers to
    and the call returns true. *)
Definition get_param {T} (get_value : rclcpp_Parameter -> option T)
    (p : list rclcpp_Parameter) (name : string) (assign : T -> Convert -> Convert) : M bool :=
  match find_name p name with
  | Some it =>
      v <- defined ParameterTypeException (get_value it) ;;
      modify (assign v) ;;;
      ret true
  | None => ret false
  end.

(** Lines 191-193: [invalid_intensity_array_.at(i) = static_cast<float>(src[i])]
    for every index [i] of [src], from [i] on. *)
Fixpoint copy_invalid_intensity (i : nat) (src : list float) : M unit :=
  match src with
  | [] => ret tt
  | d :: rest =>
      arr <- gets invalid_intensity_array_ ;;
      arr' <- defined OutOfRange (at_put arr i (Cxx.static_cast_float d)) ;;
      modify (set_invalid_intensity_array arr') ;;;
      copy_invalid_intensity (S i) rest
  end.

Definition paramCallback (p : list rclcpp_Parameter) : M SetParametersResult :=
  (* lines 170-177 *)
  changed <-
    orelse (get_param get_value_double p "min_range" (fun v => on_config (set_min_range v)))
   (orelse (get_param get_value_double p "max_range" (fun v => on_config (set_max_range v)))
   (orelse (get_param get_value_double p "view_direction" (fun v => on_config (set_view_direction v)))
           (get_param get_value_double p "view_width" (fun v => on_config (set_view_width v))))) ;;
  (if changed : bool then
     c <- gets config_ ;;
     emit (call_setParameters (min_range c) (max_range c) (view_direction c) (view_width c)) ;;;
     modify (fun n => set_data (RawData.setParameters (data_ n)
               (min_range c) (max_range c) (view_direction c) (view_width c)) n)
   else ret tt) ;;;
  (* lines 179-180 *)
  get_param get_value_int p "num_points_threshold" set_num_points_threshold ;;;
  get_param get_value_double p "scan_phase" (fun v => on_config (set_scan_phase v)) ;;;
  (* lines 182-188 *)
  invalid_intensity_double <-
    match find_name p "invalid_intensity" with
    | Some it => defined ParameterTypeException (as_double_array it)
    | None => ret []
    end ;;
  (* lines 190-193 *)
  num_lasers <- gets (fun n => RawData.getNumLasers (data_ n)) ;;
  modify (set_invalid_intensity_array (List.repeat 0%float num_lasers)) ;;;
  copy_invalid_intensity 0 invalid_intensity_double ;;;
  (* lines 203-207 *)
  ret {| successful := true; reason := "success" |}.

(* --------------------------------------------------------------------- *)
(** *** Scan segmenter: the overflow buffer (lines 219-254) *)
(* --------------------------------------------------------------------- *)

(** Lines 222-224: [for (i = src.size(); i > 0; --i) dst.push_back(src[i-1])],
    from [i] down.  The index [i-1] is below the size throughout, as the
    loop starts at [i = src.size()]. *)
Fixpoint push_back_from (src : list PointXYZIRADT) (i : nat)
    (dst : list PointXYZIRADT) : list PointXYZIRADT :=
  match i with
  | O => dst
  | S i' =>
      match List.nth_error src i' with
      | Some p => push_back_from src i' (push_back dst p)
      | None => dst
      end
  end.

(** Lines 244 and 250: [uint16_t current_azimuth = (int) p.azimuth]. *)
Definition azimuth_of (p : PointXYZIRADT) : Z := Cxx.to_uint16 (azimuth p).

(** Lines 245 and 251:
    [uint16_t phase_diff = (36000 + current_azimuth - phase) % 36000],
    the arithmetic in [int], the result stored in 16 bits. *)
Definition phase_diff_of (phase current_azimuth : Z) : Z :=
  Cxx.to_uint16 (Cxx.rem (36000 + current_azimuth - phase) 36000).

(** The variables of the loop of lines 246-252. *)
Record loop_vars : Type := mkVars {
  scan_points : list PointXYZIRADT;      (* scan_points_xyziradt.pc->points *)
  overflow_points : list PointXYZIRADT;  (* _overflow_buffer.pc->points *)
  current_azimuth : Z;
  phase_diff : Z
}.

Inductive loop_exit : Type :=
| LoopExit (st : loop_vars)
| LoopAbort (f : fault) (st : loop_vars).

(** The loop condition of line 246. *)
Definition loop_test (st : loop_vars) : bool :=
  (phase_diff st <? 18000) && (0 <? size (scan_points st)).

Definition inspect {A} (a : A) : {b : A | a = b} := exist _ a eq_refl.

(** Lines 246-252.  One pass moves the last point to the overflow buffer
    and then reads the azimuth of the new last point, before the loop
    condition looks at the size again.  Each pass removes a point, which
    is the measure of termination.  When the pass has taken the last
    point, line 250 reads [back()] of the empty vector, and the test of
    the size at line 246 comes only after that read: [LoopAbort EmptyBack]
    marks the read, which is where the model leaves the execution. *)
Equations? overflow_loop (phase : Z) (st : loop_vars) : loop_exit
  by wf (List.length (scan_points st)) lt :=
overflow_loop phase st with inspect (loop_test st) := {
  | exist _ false _ => LoopExit st
  | exist _ true Htest with back (scan_points st) := {
    | None => LoopAbort EmptyBack st
    | Some p with back (pop_back (scan_points st)) := {
      | None =>
          LoopAbort EmptyBack
            {| scan_points := pop_back (scan_points st);
               overflow_points := push_back (overflow_points st) p;
               current_azimuth := current_azimuth st;
               phase_diff := phase_diff st |}
      | Some q =>
          overflow_loop phase
            {| scan_points := pop_back (scan_points st);
               overflow_points := push_back (overflow_points st) p;
               current_azimuth := azimuth_of q;
               phase_diff := phase_diff_of phase (azimuth_of q) |} } } }.
Proof.
  cbn. unfold loop_test, size in Htest.
  apply andb_prop in Htest. destruct Htest as [_ Hsize].
  apply Z.ltb_lt in Hsize.
  destruct (scan_points st) as [|a l]; cbn in Hsize; [lia|].
  unfold pop_back.
  destruct (@exists_last _ (a :: l)) as (l' & b & ->); [discriminate|].
  rewrite List.removelast_last, List.length_app. cbn. lia.
Qed.

Definition with_points (c : PointCloud) (pts : list PointXYZIRADT) (w : Z) : PointCloud :=
  {| header := header c; points := pts; width := w; height := height c |}.

(** Lines 241-254, given [phase]: the points left in the scan. *)
Definition remove_overflow_points (phase : Z) (pts : list PointXYZIRADT)
    : M (list PointXYZIRADT) :=
  if 0 <? size pts then
    last_point <- defined EmptyBack (back pts) ;;
    ov <- gets _overflow_buffer ;;
    match overflow_loop phase
            {| scan_points := pts;
               overflow_points := points ov;
               current_azimuth := azimuth_of last_point;
               phase_diff := phase_diff_of phase (azimuth_of last_point) |} with
    | LoopExit st =>
        modify (set_overflow_buffer
                  (with_points ov (overflow_points st)
                     (Cxx.to_uint32 (size (overflow_points st))))) ;;;
        ret (scan_points st)
    | LoopAbort f st =>
        modify (set_overflow_buffer (with_points ov (overflow_points st) (width ov))) ;;;
        abort f
    end
  else ret pts.

(* --------------------------------------------------------------------- *)
(** *** The processing cycle: [processScan] (lines 44-48, 211-332) *)
(* --------------------------------------------------------------------- *)

(** [pub->get_subscription_count()]: the sink's answer to this query. *)
Definition get_subscription_count (sink : Sink) (p : Publisher) : M nat :=
  fun w => Returns (sink p (queries w))
             {| node := node w; trace := trace w; queries := S (queries w) |}.

(** [pub->get_subscription_count() > 0]. *)
Definition subscribed (sink : Sink) (p : Publisher) : M bool :=
  n <- get_subscription_count sink p ;; ret (0 <? n)%nat.

Definition publish (p : Publisher) (m : Message) : M unit := emit (call_publish p m).

Definition when (b : bool) (m : M unit) : M unit := if b then m else ret tt.

(** [toChronoNanoSeconds], lines 44-48: the [duration_cast] multiplies the
    seconds by 10^9 in [double] and converts the product to a 64-bit tick
    count.  [None] where the product does not fit 64 bits: the conversion
    is undefined there, and the model gives it no value. *)
Definition toChronoNanoSeconds (seconds : float) : option Z :=
  Cxx.trunc_to_int64 (seconds * 1000000000)%float.

(** Line 241: [int phase = (uint16_t) round(config_.scan_phase * 100)]. *)
Definition phase_of (c : Config) : option Z :=
  Cxx.round_to_uint16 (scan_phase c * 100)%float.

(** Lines 219-254: the segmenter.  The overflow buffer is emptied into the
    front of the scan, last buffered point first; the decoder appends the
    points of the packets; the tail of the scan that lies within half a
    turn after the phase goes back to the overflow buffer.  The dump
    counter of line 237 is a C++ integer, passed on as [int frame_id]; the
    model counts in [Z], and follows the code while the counter is in the
    range of [int]. *)
Definition segment (scanMsg : VelodyneScan) : M (list PointXYZIRADT) :=
  (* line 213: the scan starts as a new cloud *)
  let scan := new_PointCloud in
  (* lines 222-228 *)
  ov <- gets _overflow_buffer ;;
  let pts := push_back_from (points ov) (List.length (points ov)) (points scan) in
  modify (set_overflow_buffer {| header := header ov; points := []; width := 0; height := 1 |}) ;;;
  (* line 231 *)
  d <- gets data_ ;;
  emit (call_unpack_all (packets scanMsg)) ;;;
  let pts := pts ++ unpack_all d (packets scanMsg) in
  (* lines 234-238 *)
  save <- gets save_test_vector_ ;;
  when save
    (frame <- gets convert_frame_id_ ;;
     emit (call_writeInPackets frame) ;;;
     emit (call_writeOutPointClouds frame (with_points scan pts (width scan))) ;;;
     modify (set_convert_frame_id (frame + 1))) ;;;
  (* lines 241-254 *)
  c <- gets config_ ;;
  phase <- defined FloatToInteger (phase_of c) ;;
  remove_overflow_points phase pts.

(** Lines 256-266: the header of the message, the time stamp of the first
    point of the scan, height 1 and the number of points as the width. *)
Definition stamped (scanMsg : VelodyneScan) (pts : list PointXYZIRADT) (ns : Z)
    : PointCloud :=
  let hdr := toPCL_header (scan_header scanMsg) in
  {| header := {| seq := seq hdr; stamp := toPCL_time ns; frame_id := frame_id hdr |};
     points := pts;
     width := Cxx.to_uint32 (size pts);
     height := 1 |}.

(** Lines 259-263 read [front()] of the scan and convert its time stamp
    without a test.  Where the scan is empty or the stamp does not
    convert, the operation is undefined and the model leaves the execution
    there. *)
Definition stamp_scan (scanMsg : VelodyneScan) (pts : list PointXYZIRADT) : M PointCloud :=
  first_point <- defined EmptyFront (front pts) ;;
  let first_point_timestamp := time_stamp first_point in
  ns <- defined FloatToInteger (toChronoNanoSeconds first_point_timestamp) ;;
  ret (stamped scanMsg pts ns).

(** Lines 213-267: [scan_points_xyziradt]. *)
Definition closed_scan (sink : Sink) (scanMsg : VelodyneScan) : M PointCloud :=
  wanted <-
    orelse (subscribed sink velodyne_points_pub_)
   (orelse (subscribed sink velodyne_points_ex_pub_)
   (orelse (subscribed sink velodyne_points_invalid_near_pub_)
           (subscribed sink velodyne_points_combined_ex_pub_))) ;;
  if wanted : bool then
    pts <- segment scanMsg ;;
    stamp_scan scanMsg pts
  else ret new_PointCloud.

(** Lines 269-288: [valid_points_xyziradt] and its two outputs. *)
Definition valid_view (sink : Sink) (scan : PointCloud) : M PointCloud :=
  wanted <-
    orelse (subscribed sink velodyne_points_pub_)
   (orelse (subscribed sink velodyne_points_ex_pub_)
           (subscribed sink velodyne_points_combined_ex_pub_)) ;;
  if wanted : bool then
    d <- gets data_ ;;
    emit (call_extractValidPoints scan (RawData.getMinRange d) (RawData.getMaxRange d)) ;;;
    let valid_points_xyziradt :=
      extractValidPoints scan (RawData.getMinRange d) (RawData.getMaxRange d) in
    s <- subscribed sink velodyne_points_pub_ ;;
    when s
      (emit (call_convert valid_points_xyziradt) ;;;
       publish velodyne_points_pub_ (PointCloud2_XYZIR (convert valid_points_xyziradt))) ;;;
    s <- subscribed sink velodyne_points_ex_pub_ ;;
    when s (publish velodyne_points_ex_pub_ (PointCloud2_XYZIRADT valid_points_xyziradt)) ;;;
    ret valid_points_xyziradt
  else ret new_PointCloud.

(** Lines 290-306: [invalid_near_points_filtered_xyziradt] and its output. *)
Definition invalid_near_view (sink : Sink) (scan : PointCloud) : M PointCloud :=
  wanted <-
    orelse (subscribed sink velodyne_points_invalid_near_pub_)
           (subscribed sink velodyne_points_combined_ex_pub_) ;;
  if wanted : bool then
    num_lasers <- gets (fun n => RawData.getNumLasers (data_ n)) ;;
    emit (call_sortZeroIndex scan num_lasers) ;;;
    let sorted_invalid_points_xyziradt := sortZeroIndex scan num_lasers in
    arr <- gets invalid_intensity_array_ ;;
    threshold <- gets num_points_threshold_ ;;
    emit (call_extractInvalidNearPointsFiltered
            sorted_invalid_points_xyziradt arr num_lasers threshold) ;;;
    let invalid_near_points_filtered_xyziradt :=
      extractInvalidNearPointsFiltered
        sorted_invalid_points_xyziradt arr num_lasers threshold in
    s <- subscribed sink velodyne_points_invalid_near_pub_ ;;
    when s
      (emit (call_convert invalid_near_points_filtered_xyziradt) ;;;
       publish velodyne_points_invalid_near_pub_
         (PointCloud2_XYZIR (convert invalid_near_points_filtered_xyziradt))) ;;;
    ret invalid_near_points_filtered_xyziradt
  else ret new_PointCloud.

(** Lines 311-322: the two views put end to end. *)
Definition combine (valid invalid_near : PointCloud) : PointCloud :=
  let pts := insert_end (insert_end (points new_PointCloud) (points valid))
                        (points invalid_near) in
  {| header := header valid;
     points := pts;
     width := Cxx.to_uint32 (size pts);
     height := 1 |}.

(** Lines 308-326: [combined_points_xyziradt] and its output. *)
Definition combined_view (sink : Sink) (valid invalid_near : PointCloud) : M PointCloud :=
  s <- subscribed sink velodyne_points_combined_ex_pub_ ;;
  if s : bool then
    let combined_points_xyziradt := combine valid invalid_near in
    publish velodyne_points_combined_ex_pub_ (PointCloud2_XYZIRADT combined_points_xyziradt) ;;;
    ret combined_points_xyziradt
  else ret new_PointCloud.

(** Lines 328-331. *)
Definition model_marker (sink : Sink) (scanMsg : VelodyneScan) : M unit :=
  s <- subscribed sink marker_array_pub_ ;;
  when s (publish marker_array_pub_ (MarkerArray (scan_header scanMsg))).

(** The four clouds that are local to one call of [processScan], as they
    are when the call returns. *)
Record Locals : Type := mkLocals {
  scan_points_xyziradt : PointCloud;
  valid_points_xyziradt : PointCloud;
  invalid_near_points_filtered_xyziradt : PointCloud;
  combined_points_xyziradt : PointCloud
}.

(** Lines 269-331: the views of the scan and the marker. *)
Definition compose_views (sink : Sink) (scanMsg : VelodyneScan) (scan : PointCloud)
    : M Locals :=
  valid <- valid_view sink scan ;;
  invalid_near <- invalid_near_view sink scan ;;
  combined <- combined_view sink valid invalid_near ;;
  model_marker sink scanMsg ;;;
  ret {| scan_points_xyziradt := scan;
         valid_points_xyziradt := valid;
         invalid_near_points_filtered_xyziradt := invalid_near;
         combined_points_xyziradt := combined |}.

(** [Convert::processScan].  The C++ function returns nothing; the model
    returns its local clouds so that properties can name them. *)
Definition processScan (sink : Sink) (scanMsg : VelodyneScan) : M Locals :=
  scan <- closed_scan sink scanMsg ;;
  compose_views sink scanMsg scan.

End Node.

Arguments Aborts {ext A} f w.
Arguments Returns {ext A} a w.

Notation "x <- m ;; k" := (bind m (fun x => k))
  (at level 100, m at next level, right associativity) : monad_scope.
Notation "m ;;; k" := (bind m (fun _ => k))
  (at level 100, right associativity) : monad_scope.

(* ===================================================================== *)
(** ** The segmenter as the specification words it (section 4.1) *)
(* ===================================================================== *)

(** "let diff(azimuth) = (36000 + azimuth - phase) mod 36000". *)
Definition spec_diff (phase az : Z) : Z := (36000 + az - phase) mod 36000.

(** "let phase = round(phaseDeg * 100) mod 36000". *)
Definition spec_phase (phaseDeg : float) : option Z :=
  option_map (fun r => r mod 36000) (Cxx.integral true (phaseDeg * 100)%float).

(** "While the buffer is non-empty and diff(lastPoint.azimuth) < 18000,
    move the last point from rawPoints into the new carry-over buffer
    (appended) and re-evaluate with the new last point."  The buffer is
    walked from its tail, so it is passed last point first. *)
Fixpoint spec_backward_scan (phase : Z) (tail_first carry : list PointXYZIRADT)
    : list PointXYZIRADT * list PointXYZIRADT :=
  match tail_first with
  | [] => ([], carry)
  | p :: rest =>
      if spec_diff phase (azimuth p) <? 18000
      then spec_backward_scan phase rest (carry ++ [p])
      else (List.rev tail_first, carry)
  end.

(** "segment(rawPoints, phaseDeg) -> (closedScan, newCarryOver)", for the
    phase already in hundredths of a degree. *)
Definition spec_segment (phase : Z) (rawPoints : list PointXYZIRADT)
    : list PointXYZIRADT * list PointXYZIRADT :=
  spec_backward_scan phase (List.rev rawPoints) [].

(* ===================================================================== *)
(** ** Observations on a cycle *)
(* ===================================================================== *)

(** The calls a computation adds to the trace of the world it starts in. *)
Definition calls_of {ext : Collaborators} {A} (m : M A) (w : World) : list call :=
  List.skipn (List.length (trace w)) (trace (world_of (m w))).

(** Some query of the cycle about publisher [p] finds a subscriber. *)
Definition wants (sink : Sink) (p : Publisher) : Prop := exists k, (0 < sink p k)%nat.

(** The test of lines 214-218 when its first query is query [q]: each
    publisher is asked in turn until one has a subscriber. *)
Definition cloud_wanted (sink : Sink) (q : nat) : bool :=
  (0 <? sink velodyne_points_pub_ q)%nat
  || (0 <? sink velodyne_points_ex_pub_ (S q))%nat
  || (0 <? sink velodyne_points_invalid_near_pub_ (S (S q)))%nat
  || (0 <? sink velodyne_points_combined_ex_pub_ (S (S (S q))))%nat.

(** The demand that each call of a cycle answers to. *)
Definition demanded {ext : Collaborators} (sink : Sink) (c : call) : Prop :=
  match c with
  | call_setParameters _ _ _ _ => False
  | call_unpack_all _ | call_writeInPackets _ | call_writeOutPointClouds _ _ =>
      wants sink velodyne_points_pub_ \/ wants sink velodyne_points_ex_pub_ \/
      wants sink velodyne_points_invalid_near_pub_ \/
      wants sink velodyne_points_combined_ex_pub_
  | call_extractValidPoints _ _ _ =>
      wants sink velodyne_points_pub_ \/ wants sink velodyne_points_ex_pub_ \/
      wants sink velodyne_points_combined_ex_pub_
  | call_sortZeroIndex _ _ | call_extractInvalidNearPointsFiltered _ _ _ _ =>
      wants sink velodyne_points_invalid_near_pub_ \/
      wants sink velodyne_points_combined_ex_pub_
  | call_convert _ =>
      wants sink velodyne_points_pub_ \/ wants sink velodyne_points_invalid_near_pub_
  | call_publish p _ => wants sink p
  end.

(** The filtering calls: range-valid extraction, ring sort, near-invalid
    extraction. *)
Definition is_filtering {ext : Collaborators} (c : call) : bool :=
  match c with
  | call_extractValidPoints _ _ _ | call_sortZeroIndex _ _
  | call_extractInvalidNearPointsFiltered _ _ _ _ => true
  | _ => false
  end.

(** The loop variables when the last point read is [q]. *)
Definition vars_at (phase : Z) (pts ov : list PointXYZIRADT) (q : PointXYZIRADT) : loop_vars :=
  {| scan_points := pts; overflow_points := ov;
     current_azimuth := azimuth_of q;
     phase_diff := phase_diff_of phase (azimuth_of q) |}.

(** The points the segmenter works on in a cycle that starts in [w]: the
    overflow buffer, last buffered point first, then the points decoded
    from the packets. *)
Definition raw_points {ext : Collaborators} (w : World) (scanMsg : VelodyneScan)
    : list PointXYZIRADT :=
  List.rev (points (_overflow_buffer (node w)))
  ++ unpack_all (data_ (node w)) (packets scanMsg).

(** The calls of the segmenter: the decoder, and the two dumps when the
    node saves test vectors. *)
Definition segment_calls {ext : Collaborators} (w : World) (scanMsg : VelodyneScan)
    : list call :=
  call_unpack_all (packets scanMsg)
  :: (if save_test_vector_ (node w)
      then [call_writeInPackets (convert_frame_id_ (node w));
            call_writeOutPointClouds (convert_frame_id_ (node w))
              (with_points new_PointCloud (raw_points w scanMsg) 0)]
      else []).

(** The world the segmenter leaves when [carry] is the content and
    [wd] the width of the overflow buffer. *)
Definition after_segment {ext : Collaborators} (w : World) (scanMsg : VelodyneScan)
    (carry : list PointXYZIRADT) (wd : Z) : World :=
  {| node :=
       set_overflow_buffer
         {| header := header (_overflow_buffer (node w)); points := carry;
            width := wd; height := 1 |}
         (if save_test_vector_ (node w)
          then set_convert_frame_id (convert_frame_id_ (node w) + 1) (node w)
          else node w);
     trace := trace w ++ segment_calls w scanMsg;
     queries := queries w |}.

(** No query of the cycle about publisher [p] finds a subscriber. *)
Definition unwanted (sink : Sink) (p : Publisher) : Prop := forall k, sink p k = O.

(** The range-valid cloud of lines 275-276 and the calls of lines 275-287,
    when the plain output is published ([b1]) and when the extended
    output is published ([b2]). *)
Definition valid_of {ext : Collaborators} (scan : PointCloud) (n : Convert) : PointCloud :=
  extractValidPoints scan (RawData.getMinRange (data_ n)) (RawData.getMaxRange (data_ n)).

Definition valid_calls {ext : Collaborators} (scan : PointCloud) (n : Convert)
    (b1 b2 : bool) : list call :=
  call_extractValidPoints scan (RawData.getMinRange (data_ n)) (RawData.getMaxRange (data_ n))
  :: (if b1 then [call_convert (valid_of scan n);
                  call_publish velodyne_points_pub_
                    (PointCloud2_XYZIR (convert (valid_of scan n)))]
      else [])
  ++ (if b2 then [call_publish velodyne_points_ex_pub_ (PointCloud2_XYZIRADT (valid_of scan n))]
      else []).

(** The near-invalid cloud of lines 295-298 and the calls of lines
    295-305, when the output is published ([b1]). *)
Definition invalid_near_of {ext : Collaborators} (scan : PointCloud) (n : Convert)
    : PointCloud :=
  extractInvalidNearPointsFiltered
    (sortZeroIndex scan (RawData.getNumLasers (data_ n)))
    (invalid_intensity_array_ n) (RawData.getNumLasers (data_ n)) (num_points_threshold_ n).

Definition invalid_near_calls {ext : Collaborators} (scan : PointCloud) (n : Convert)
    (b1 : bool) : list call :=
  [call_sortZeroIndex scan (RawData.getNumLasers (data_ n));
   call_extractInvalidNearPointsFiltered
     (sortZeroIndex scan (RawData.getNumLasers (data_ n)))
     (invalid_intensity_array_ n) (RawData.getNumLasers (data_ n)) (num_points_threshold_ n)]
  ++ (if b1 then [call_convert (invalid_near_of scan n);
                  call_publish velodyne_points_invalid_near_pub_
                    (PointCloud2_XYZIR (convert (invalid_near_of scan n)))]
      else []).

(** A world that differs from [w] in the trace and the query count only. *)
Definition observed {ext : Collaborators} (w : World) (l : list call) (q : nat) : World :=
  {| node := node w; trace := trace w ++ l; queries := q |}.

(** A world that differs from [w] in the query count only. *)
Definition asked {ext : Collaborators} (w : World) (q : nat) : World :=
  {| node := node w; trace := trace w; queries := q |}.

(** The outcomes of the tests of lines 271-328 in one cycle. *)
Record answers : Type := mkAnswers {
  valid_wanted : bool;         (* lines 272-274 *)
  points_wanted : bool;        (* line 277 *)
  ex_wanted : bool;            (* line 283 *)
  invalid_near_wanted : bool;  (* lines 293-294 *)
  near_wanted : bool;          (* line 299 *)
  combined_wanted : bool;      (* line 310 *)
  marker_wanted : bool         (* line 328 *)
}.

(** Each test that succeeds has found a subscriber. *)
Definition answered (sink : Sink) (a : answers) : Prop :=
  (valid_wanted a = true ->
     wants sink velodyne_points_pub_ \/ wants sink velodyne_points_ex_pub_ \/
     wants sink velodyne_points_combined_ex_pub_)
  /\ (points_wanted a = true -> wants sink velodyne_points_pub_)
  /\ (ex_wanted a = true -> wants sink velodyne_points_ex_pub_)
  /\ (invalid_near_wanted a = true ->
       wants sink velodyne_points_invalid_near_pub_ \/
       wants sink velodyne_points_combined_ex_pub_)
  /\ (near_wanted a = true -> wants sink velodyne_points_invalid_near_pub_)
  /\ (combined_wanted a = true -> wants sink velodyne_points_combined_ex_pub_)
  /\ (marker_wanted a = true -> wants sink marker_array_pub_).

(** The local clouds at the end of lines 269-331, by the outcomes of the
    tests. *)
Definition views_locals {ext : Collaborators} (scan : PointCloud) (n : Convert)
    (a : answers) : Locals :=
  let valid := if valid_wanted a then valid_of scan n else new_PointCloud in
  let invalid_near := if invalid_near_wanted a then invalid_near_of scan n else new_PointCloud in
  {| scan_points_xyziradt := scan;
     valid_points_xyziradt := valid;
     invalid_near_points_filtered_xyziradt := invalid_near;
     combined_points_xyziradt :=
       if combined_wanted a then combine valid invalid_near else new_PointCloud |}.

(** The calls of lines 269-331, by the outcomes of the tests. *)
Definition views_calls {ext : Collaborators} (scanMsg : VelodyneScan) (scan : PointCloud)
    (n : Convert) (a : answers) : list call :=
  (if valid_wanted a then valid_calls scan n (points_wanted a) (ex_wanted a) else [])
  ++ (if invalid_near_wanted a then invalid_near_calls scan n (near_wanted a) else [])
  ++ (if combined_wanted a
      then [call_publish velodyne_points_combined_ex_pub_
              (PointCloud2_XYZIRADT
                 (combine (valid_points_xyziradt (views_locals scan n a))
                          (invalid_near_points_filtered_xyziradt (views_locals scan n a))))]
      else [])
  ++ (if marker_wanted a
      then [call_publish marker_array_pub_ (MarkerArray (scan_header scanMsg))]
      else []).

(** The segmenter called on a sequence of batches, one call per batch, the
    closed scans collected in order. *)
Fixpoint segment_all {ext : Collaborators} (batches : list VelodyneScan)
    : M (list (list PointXYZIRADT)) :=
  match batches with
  | [] => ret []
  | scanMsg :: rest =>
      (closed <- segment scanMsg ;;
       more <- segment_all rest ;;
       ret (closed :: more))%monad
  end.

(* ===================================================================== *)
(** ** A test double and concrete inputs *)
(* ===================================================================== *)

(** A stand-in for the collaborators, to run the node on concrete inputs:
    a packet carries the points it decodes to, the range filter keeps the
    points whose distance is within the limits, the near-invalid filter
    keeps the points at distance zero, every cloud a filter returns has
    height 1 and its number of points as width, and a stamp is kept as the
    count of nanoseconds it is converted from. *)
Definition bench : Collaborators := {|
  VelodynePacket := list PointXYZIRADT;
  PointCloudXYZIR := PointCloud;
  unpack_all := fun _ pk => List.concat pk;
  extractValidPoints := fun c mn mx =>
    let pts := List.filter (fun p => (mn <=? distance p)%float && (distance p <=? mx)%float)
                           (points c) in
    {| header := header c; points := pts; width := size pts; height := 1 |};
  sortZeroIndex := fun c _ => c;
  extractInvalidNearPointsFiltered := fun c _ _ _ =>
    let pts := List.filter (fun p => (distance p =? 0)%float) (points c) in
    {| header := header c; points := pts; width := size pts; height := 1 |};
  convert := fun c => c;
  toPCL_header := fun h =>
    {| seq := 0; stamp := stamp_sec h; frame_id := header_frame_id h |};
  toPCL_time := fun ns => ns
|}.

(** A point at azimuth [az] (hundredths of a degree), distance [d] metres
    and time [t] seconds. *)
Definition pt (az : Z) (d t : float) : PointXYZIRADT :=
  {| x := 0; y := 0; z := 0; intensity := 0; return_type := 0; ring := 0;
     azimuth := az; distance := d; time_stamp := t |}.

Definition config0 : Config :=
  {| min_range := 0.5; max_range := 130; view_direction := 0;
     view_width := 6.25; scan_phase := 0 |}.

(** A node as the constructor leaves it, for a sensor with two lasers. *)
Definition node0 : Convert :=
  {| config_ := config0;
     num_points_threshold_ := 300;
     invalid_intensity_array_ := [0%float; 0%float];
     data_ := RawData.mk 0.5 130 0 6.25 2;
     _overflow_buffer := new_PointCloud;
     save_test_vector_ := false;
     convert_frame_id_ := 0 |}.

Definition start (n : Convert) : @World bench :=
  {| node := n; trace := []; queries := 0 |}.

(** A scan message of one packet that decodes to [pts]. *)
Definition batch (pts : list PointXYZIRADT) : @VelodyneScan bench :=
  @mkScan bench
    {| stamp_sec := 10; stamp_nanosec := 0; header_frame_id := "velodyne" |} [pts].

(** A scan message without packets. *)
Definition no_packets : @VelodyneScan bench :=
  @mkScan bench
    {| stamp_sec := 10; stamp_nanosec := 0; header_frame_id := "velodyne" |} [].

(** Sinks: nobody subscribed; one subscriber on every output; one
    subscriber on a single output. *)
Definition nobody : Sink := fun _ _ => O.
Definition everyone : Sink := fun _ _ => 1%nat.
Definition Publisher_eqb (p q : Publisher) : bool :=
  match p, q with
  | velodyne_points_pub_, velodyne_points_pub_
  | velodyne_points_ex_pub_, velodyne_points_ex_pub_
  | velodyne_points_invalid_near_pub_, velodyne_points_invalid_near_pub_
  | velodyne_points_combined_ex_pub_, velodyne_points_combined_ex_pub_
  | marker_array_pub_, marker_array_pub_ => true
  | _, _ => false
  end.
Definition only (p : Publisher) : Sink :=
  fun q _ => if Publisher_eqb p q then 1%nat else O.

(** The batch of the first scenario of the specification, azimuths
    100, 200, 35900, 35950. *)
Definition scenario6 : list PointXYZIRADT :=
  [pt 100 1 0.5; pt 200 1 0.75; pt 35900 1 1; pt 35950 1 1.25].

(** Node states used below: a non-zero intensity threshold on each ring,
    a phase of half a turn, and a point waiting in the overflow buffer. *)
Definition node_intensity : Convert := set_invalid_intensity_array [5%float; 7%float] node0.
Definition node_phase180 : Convert := on_config (set_scan_phase 180) node0.
Definition node_carry : Convert :=
  set_overflow_buffer
    {| header := header new_PointCloud; points := [pt 50 1 0.25]; width := 1; height := 1 |}
    node0.

(** A batch whose only point lies just after the phase 0. *)
Definition short_batch : list PointXYZIRADT := [pt 100 1 0.5].

(** Two batches in a row: the first ends after the phase, and its tail
    is carried into the second. *)
Definition batch_a : list PointXYZIRADT := [pt 35000 1 0.5; pt 100 1 0.75; pt 200 1 1].
Definition batch_b : list PointXYZIRADT := [pt 300 1 1.25; pt 35500 1 1.5; pt 50 1 1.75].

(** The second batch of the second scenario of the specification. *)
Definition scenario7b : list PointXYZIRADT :=
  [pt 17000 1 0.5; pt 17500 1 0.75; pt 17900 1 1].

(** A batch with two points in range and two at distance zero, and the
    clouds the test double derives from it at 0.5 s. *)
Definition mixed : list PointXYZIRADT :=
  [pt 100 1 0.5; pt 200 0 0.75; pt 35900 1 1; pt 35950 0 1.25].
Definition mixed_scan : PointCloud := @stamped bench (batch mixed) mixed 500000000.
Definition mixed_valid : PointCloud := @valid_of bench mixed_scan node0.
Definition mixed_near : PointCloud := @invalid_near_of bench mixed_scan node0.

(** An update that names two of the range and view parameters. *)
Definition update_ranges : list rclcpp_Parameter :=
  [ {| get_name := "min_range"; get_parameter_value := PARAMETER_DOUBLE 1 |};
    {| get_name := "max_range"; get_parameter_value := PARAMETER_DOUBLE 100 |} ].

(* ===================================================================== *)
(** ** Further observations on the callbacks *)
(* ===================================================================== *)

(** The decoder holds the range and view limits of the configuration. *)
Definition mirrors (n : Convert) : Prop :=
  RawData.min_range (data_ n) = min_range (config_ n) /\
  RawData.max_range (data_ n) = max_range (config_ n) /\
  RawData.view_direction (data_ n) = view_direction (config_ n) /\
  RawData.view_width (data_ n) = view_width (config_ n).

(** The names that [paramCallback] looks for. *)
Definition known_names : list string :=
  ["min_range"; "max_range"; "view_direction"; "view_width";
   "num_points_threshold"; "scan_phase"; "invalid_intensity"]%string.

(** The one parameter that the tests of lines 170-173 read: the first
    found when the four names are looked up in the order of the code. *)
Definition range_parameter (p : list rclcpp_Parameter) : option rclcpp_Parameter :=
  match find_name p "min_range" with
  | Some it => Some it
  | None =>
      match find_name p "max_range" with
      | Some it => Some it
      | None =>
          match find_name p "view_direction" with
          | Some it => Some it
          | None => find_name p "view_width"
          end
      end
  end.

(** A parameter, when there is one, holds a value of the type it is read as. *)
Definition typed_as {T} (get_value : rclcpp_Parameter -> option T)
    (o : option rclcpp_Parameter) : Prop :=
  match o with Some it => get_value it <> None | None => True end.

(** Every parameter that [paramCallback] reads from the update [p] has the
    type it is read as. *)
Definition readable (p : list rclcpp_Parameter) : Prop :=
  typed_as get_value_double (range_parameter p) /\
  typed_as get_value_int (find_name p "num_points_threshold") /\
  typed_as get_value_double (find_name p "scan_phase") /\
  typed_as as_double_array (find_name p "invalid_intensity").

(** The thresholds that the update carries, none when it has no
    [invalid_intensity]. *)
Definition intensity_of (p : list rclcpp_Parameter) : list float :=
  match find_name p "invalid_intensity" with
  | Some it => match as_double_array it with Some ds => ds | None => [] end
  | None => []
  end.

(** Two worlds that differ in the per-ring thresholds at most. *)
Definition same_but_array {ext : Collaborators} (w w' : World) : Prop :=
  config_ (node w') = config_ (node w) /\
  num_points_threshold_ (node w') = num_points_threshold_ (node w) /\
  data_ (node w') = data_ (node w) /\
  _overflow_buffer (node w') = _overflow_buffer (node w) /\
  save_test_vector_ (node w') = save_test_vector_ (node w) /\
  convert_frame_id_ (node w') = convert_frame_id_ (node w) /\
  trace w' = trace w /\ queries w' = queries w.

(* ===================================================================== *)
(** ** Further observations on a cycle *)
(* ===================================================================== *)


(** The publishers that the calls [l] publish on, in the order of the
    calls. *)
Definition publications {ext : Collaborators} (l : list call) : list Publisher :=
  List.flat_map (fun c => match c with call_publish p _ => [p] | _ => [] end) l.

(** The place of an output in the text of [processScan]. *)
Definition rank (p : Publisher) : nat :=
  match p with
  | velodyne_points_pub_ => 0
  | velodyne_points_ex_pub_ => 1
  | velodyne_points_invalid_near_pub_ => 2
  | velodyne_points_combined_ex_pub_ => 3
  | marker_array_pub_ => 4
  end.

(** A sink with subscribers on the marker output only. *)
Definition marker_only (sink : Sink) : Prop :=
  unwanted sink velodyne_points_pub_ /\ unwanted sink velodyne_points_ex_pub_ /\
  unwanted sink velodyne_points_invalid_near_pub_ /\
  unwanted sink velodyne_points_combined_ex_pub_ /\
  forall k, (0 < sink marker_array_pub_ k)%nat.

(* ===================================================================== *)
(** ** Construction, and the callbacks in sequence *)
(* ===================================================================== *)

(** What the calls of [declare_parameter] in the constructor return: the
    value of each parameter at start-up, an override or the default. *)
Record Declared : Type := mkDeclared {
  declared_save_test_vector : bool;
  declared_min_range : float;
  declared_max_range : float;
  declared_view_direction : float;
  declared_view_width : float;
  declared_num_points_threshold : Z;
  declared_scan_phase : float;
  declared_invalid_intensity : list float
}.

Definition set_save_test_vector (v : bool) (n : Convert) : Convert :=
  {| config_ := config_ n; num_points_threshold_ := num_points_threshold_ n;
     invalid_intensity_array_ := invalid_intensity_array_ n; data_ := data_ n;
     _overflow_buffer := _overflow_buffer n; save_test_vector_ := v;
     convert_frame_id_ := convert_frame_id_ n |}.

(** [Convert::Convert], lines 51-164, on the members that the callbacks
    touch.  [decoder] is the decoder made at line 56 as [setup()] leaves it
    at line 133 (neither is in the sources, and nothing reads the decoder
    in between).  The publishers and the two registrations of lines
    147-163 add nothing to these members.  The model starts where the
    calls of [declare_parameter] and [setup()] have returned, with
    [declared] and [decoder] as what they returned: a start-up value of
    another type or outside its range, no value for [invalid_intensity],
    or a decoder that cannot be set up ends the constructor before, and
    has no run here. *)
Definition Convert_ctor {ext : Collaborators} (decoder : RawData.t) (declared : Declared)
    : M unit :=
  (* line 54 *)
  (modify (set_num_points_threshold 300) ;;;
   (* lines 63-64 *)
   modify (set_save_test_vector (declared_save_test_vector declared)) ;;;
   modify (set_convert_frame_id 0) ;;;
   (* lines 79, 89, 99, 109, 119, 129 *)
   modify (on_config (set_min_range (declared_min_range declared))) ;;;
   modify (on_config (set_max_range (declared_max_range declared))) ;;;
   modify (on_config (set_view_direction (declared_view_direction declared))) ;;;
   modify (on_config (set_view_width (declared_view_width declared))) ;;;
   modify (set_num_points_threshold (declared_num_points_threshold declared)) ;;;
   modify (on_config (set_scan_phase (declared_scan_phase declared))) ;;;
   (* lines 133-135 *)
   modify (set_data decoder) ;;;
   c <- gets config_ ;;
   emit (call_setParameters (min_range c) (max_range c) (view_direction c) (view_width c)) ;;;
   modify (fun n => set_data (RawData.setParameters (data_ n)
             (min_range c) (max_range c) (view_direction c) (view_width c)) n) ;;;
   (* lines 137-144 *)
   let invalid_intensity_double := declared_invalid_intensity declared in
   num_lasers <- gets (fun n => RawData.getNumLasers (data_ n)) ;;
   modify (set_invalid_intensity_array (List.repeat 0%float num_lasers)) ;;;
   copy_invalid_intensity 0 invalid_intensity_double)%monad.

(** The two callbacks that the constructor registers (lines 153-163), and
    a sequence of their invocations, one after the other; each scan comes
    with the answers of the sink to the queries of its cycle. *)
Inductive Callback {ext : Collaborators} : Type :=
| on_set_parameters (p : list rclcpp_Parameter)
| on_velodyne_packets (sink : Sink) (scanMsg : VelodyneScan).

Definition dispatch {ext : Collaborators} (c : Callback) : M unit :=
  match c with
  | on_set_parameters p => (paramCallback p ;;; ret tt)%monad
  | on_velodyne_packets sink scanMsg => (processScan sink scanMsg ;;; ret tt)%monad
  end.

Fixpoint spin {ext : Collaborators} (cs : list Callback) : M unit :=
  match cs with
  | [] => ret tt
  | c :: rest => (dispatch c ;;; spin rest)%monad
  end.

(** The decoder holds the limits of the configuration, and the node has
    one intensity threshold for each of the [lasers] lasers of the
    decoder. *)
Definition well_formed (lasers : nat) (n : Convert) : Prop :=
  mirrors n /\
  RawData.getNumLasers (data_ n) = lasers /\
  List.length (invalid_intensity_array_ n) = lasers.

(* ===================================================================== *)
(** ** More concrete inputs *)
(* ===================================================================== *)

(** An update that names [view_width] before [max_range]. *)
Definition update_view : list rclcpp_Parameter :=
  [ {| get_name := "view_width"; get_parameter_value := PARAMETER_DOUBLE 3 |};
    {| get_name := "max_range"; get_parameter_value := PARAMETER_DOUBLE 100 |} ].

(** An update of the point-count threshold, the phase and the first of
    the intensity thresholds. *)
Definition update_thresholds : list rclcpp_Parameter :=
  [ {| get_name := "num_points_threshold"; get_parameter_value := PARAMETER_INTEGER 500 |};
    {| get_name := "scan_phase"; get_parameter_value := PARAMETER_DOUBLE 90 |};
    {| get_name := "invalid_intensity";
       get_parameter_value := PARAMETER_DOUBLE_ARRAY [1.5%float] |} ].

(** An update with three intensity thresholds, one more than the two
    lasers of [node0]. *)
Definition update_long : list rclcpp_Parameter :=
  [ {| get_name := "scan_phase"; get_parameter_value := PARAMETER_DOUBLE 90 |};
    {| get_name := "invalid_intensity";
       get_parameter_value := PARAMETER_DOUBLE_ARRAY [1.5%float; 2.5%float; 3.5%float] |} ].

(** Two parameters of the name [scan_phase], and one of a name the handler
    does not look for. *)
Definition phase_90 : rclcpp_Parameter :=
  {| get_name := "scan_phase"; get_parameter_value := PARAMETER_DOUBLE 90 |}.
Definition phase_45 : rclcpp_Parameter :=
  {| get_name := "scan_phase"; get_parameter_value := PARAMETER_DOUBLE 45 |}.
Definition calibration_path : rclcpp_Parameter :=
  {| get_name := "calibration"; get_parameter_value := PARAMETER_STRING "VLP16.yaml" |}.


(** The members before the constructor has run, a decoder with two lasers
    as [setup()] leaves it, and start-up values of the parameters. *)
Definition blank : Convert :=
  {| config_ := {| min_range := 0; max_range := 0; view_direction := 0;
                   view_width := 0; scan_phase := 0 |};
     num_points_threshold_ := 0;
     invalid_intensity_array_ := [];
     data_ := RawData.mk 0 0 0 0 0;
     _overflow_buffer := new_PointCloud;
     save_test_vector_ := false;
     convert_frame_id_ := 0 |}.
Definition decoder2 : RawData.t := RawData.mk 0 0 0 0 2.
Definition declared0 : Declared :=
  {| declared_save_test_vector := false;
     declared_min_range := 0.5;
     declared_max_range := 130;
     declared_view_direction := 0;
     declared_view_width := 6.25;
     declared_num_points_threshold := 300;
     declared_scan_phase := 0;
     declared_invalid_intensity := [5%float; 7%float] |}.

(** A reconfiguration, a scan with a subscriber on every output, and
    another reconfiguration. *)
Definition session : list (@Callback bench) :=
  [ @on_set_parameters bench update_view;
    @on_velodyne_packets bench everyone (batch mixed);
    @on_set_parameters bench update_thresholds ].

(** A node that saves test vectors, at dump number 7. *)
Definition node_saving : Convert :=
  {| config_ := config0;
     num_points_threshold_ := 300;
     invalid_intensity_array_ := [0%float; 0%float];
     data_ := RawData.mk 0.5 130 0 6.25 2;
     _overflow_buffer := new_PointCloud;
     save_test_vector_ := true;
     convert_frame_id_ := 7 |}.

(** A sink whose subscribers arrive after the fourth query of the cycle. *)
Definition latecomers : Sink := fun _ k => if (k <? 4)%nat then O else 1%nat.

(* ===================================================================== *)
(** ** A reconfiguration inside a cycle *)
(* ===================================================================== *)



(** Start-up values with three intensity thresholds. *)
Definition declared_long : Declared :=
  {| declared_save_test_vector := false;
     declared_min_range := 0.5;
     declared_max_range := 130;
     declared_view_direction := 0;
     declared_view_width := 6.25;
     declared_num_points_threshold := 300;
     declared_scan_phase := 0;
     declared_invalid_intensity := [5%float; 7%float; 9%float] |}.

(* ===================================================================== *)
(** ** Vectors *)
(* ===================================================================== *)

Section VectorFacts.
Context {A : Type}.
Implicit Types (v : list A) (a : A).

Lemma back_push_back v a : back (push_back v a) = Some a.
Proof.
  unfold back, push_back. rewrite List.map_app. cbn.
  apply List.last_last.
Qed.

Lemma back_nil : back (@nil A) = None.
Proof. reflexivity. Qed.

Lemma back_None v : back v = None -> v = [].
Proof.
  destruct v as [|b v'] using List.rev_ind; [reflexivity|].
  intros Hb. change (v' ++ [b]) with (push_back v' b) in Hb.
  rewrite back_push_back in Hb. discriminate.
Qed.

Lemma back_Some v a : back v = Some a -> exists v', v = push_back v' a.
Proof.
  destruct v as [|b v'] using List.rev_ind; [discriminate|].
  change (v' ++ [b]) with (push_back v' b).
  rewrite back_push_back. intros [= ->]. now exists v'.
Qed.

Lemma pop_back_push_back v a : pop_back (push_back v a) = v.
Proof. apply List.removelast_last. Qed.

Lemma size_push_back v a : size (push_back v a) = size v + 1.
Proof. unfold size, push_back. rewrite List.length_app. cbn. lia. Qed.

Lemma size_nonneg v : 0 <= size v.
Proof. unfold size. lia. Qed.

Lemma size_pos_iff v : (0 <? size v) = true <-> v <> [].
Proof.
  unfold size. destruct v; cbn; split; intros H; try easy.
Qed.

Lemma at_put_Some v i a :
  (i < List.length v)%nat -> exists v', at_put v i a = Some v' /\ List.length v' = List.length v.
Proof.
  revert i. induction v as [|b v IH]; intros [|i] Hi; cbn in *; try lia.
  - eexists; split; [reflexivity|reflexivity].
  - destruct (IH i) as (v' & -> & Hlen); [lia|]. cbn.
    eexists; split; [reflexivity|]. cbn. now rewrite Hlen.
Qed.

Lemma at_put_None v i a : (List.length v <= i)%nat -> at_put v i a = None.
Proof.
  revert i. induction v as [|b v IH]; intros [|i] Hi; cbn in *; try lia; try reflexivity.
  rewrite IH by lia. reflexivity.
Qed.

End VectorFacts.

(** The loop of lines 222-224 appends the source in reverse. *)
Lemma push_back_from_firstn (src : list PointXYZIRADT) (i : nat) :
  forall dst, (i <= List.length src)%nat ->
  push_back_from src i dst = dst ++ List.rev (List.firstn i src).
Proof.
  induction i as [|i IH]; intros dst Hi; cbn [push_back_from].
  - cbn. now rewrite List.app_nil_r.
  - destruct (List.nth_error src i) as [p|] eqn:Hp.
    + rewrite IH by lia. unfold push_back.
      assert (Hsplit : List.firstn (S i) src = List.firstn i src ++ [p]).
      { clear - Hp. revert i Hp. induction src as [|a src IHs]; intros [|i] Hp; cbn in *;
          try discriminate.
        - now injection Hp as ->.
        - f_equal. now apply IHs. }
      rewrite Hsplit, List.rev_app_distr, <- List.app_assoc. reflexivity.
    + apply List.nth_error_None in Hp. lia.
Qed.

Lemma push_back_from_rev (src dst : list PointXYZIRADT) :
  push_back_from src (List.length src) dst = dst ++ List.rev src.
Proof.
  rewrite push_back_from_firstn by lia. now rewrite List.firstn_all.
Qed.

(* ===================================================================== *)
(** ** The loop of the segmenter *)
(* ===================================================================== *)

(** The loop stops when the point read last is half a turn or more past
    the phase. *)
Lemma overflow_loop_exit phase st :
  loop_test st = false -> overflow_loop phase st = LoopExit st.
Proof.
  intros Ht. rewrite overflow_loop_equation_1.
  generalize (inspect (loop_test st)). intros [b Hb].
  destruct b; [congruence|]. reflexivity.
Qed.

(** One pass of the loop when a point remains under the one it moves. *)
Lemma overflow_loop_step phase pts ov q p caz pd :
  pd < 18000 ->
  overflow_loop phase
    {| scan_points := push_back (push_back pts q) p; overflow_points := ov;
       current_azimuth := caz; phase_diff := pd |}
  = overflow_loop phase (vars_at phase (push_back pts q) (push_back ov p) q).
Proof.
  intros Hpd. rewrite overflow_loop_equation_1.
  generalize (inspect (loop_test
    {| scan_points := push_back (push_back pts q) p; overflow_points := ov;
       current_azimuth := caz; phase_diff := pd |})).
  intros [b Hb].
  assert (b = true) as ->.
  { rewrite <- Hb. unfold loop_test. cbn [phase_diff scan_points].
    rewrite !size_push_back. apply andb_true_intro. split.
    - now apply Z.ltb_lt.
    - apply Z.ltb_lt. pose proof (size_nonneg pts). lia. }
  cbn [overflow_loop_unfold_clause_1 scan_points].
  rewrite back_push_back. cbn [overflow_loop_unfold_clause_1_clause_2].
  cbn [scan_points]. rewrite pop_back_push_back, back_push_back.
  cbn [overflow_loop_unfold_clause_1_clause_2_clause_2 scan_points overflow_points].
  rewrite pop_back_push_back. reflexivity.
Qed.

(** The pass that moves the only point left: the loop reads the last
    point of the vector it has just emptied. *)
Lemma overflow_loop_last phase ov p caz pd :
  pd < 18000 ->
  overflow_loop phase
    {| scan_points := [p]; overflow_points := ov; current_azimuth := caz; phase_diff := pd |}
  = LoopAbort EmptyBack
      {| scan_points := []; overflow_points := push_back ov p;
         current_azimuth := caz; phase_diff := pd |}.
Proof.
  intros Hpd. rewrite overflow_loop_equation_1.
  generalize (inspect (loop_test
    {| scan_points := [p]; overflow_points := ov; current_azimuth := caz; phase_diff := pd |})).
  intros [b Hb].
  assert (b = true) as ->.
  { rewrite <- Hb. unfold loop_test. cbn. apply andb_true_intro. split; [|reflexivity].
    now apply Z.ltb_lt. }
  reflexivity.
Qed.

(** The tail of the scan whose points are all within half a turn after
    the phase moves to the overflow buffer, last point first, and the loop
    stops on the point [p] before it. *)
Lemma overflow_loop_stops phase pts p ov :
  18000 <= phase_diff_of phase (azimuth_of p) ->
  forall suf q,
  List.Forall (fun r => phase_diff_of phase (azimuth_of r) < 18000) suf ->
  back (push_back pts p ++ suf) = Some q ->
  overflow_loop phase (vars_at phase (push_back pts p ++ suf) ov q)
  = LoopExit (vars_at phase (push_back pts p) (ov ++ List.rev suf) p).
Proof.
  intros Hp suf. revert ov.
  induction suf as [|a suf IH] using List.rev_ind; intros ov q Hsmall Hq.
  - rewrite List.app_nil_r in *. rewrite back_push_back in Hq. injection Hq as <-.
    cbn [List.rev]. rewrite List.app_nil_r.
    apply overflow_loop_exit. unfold loop_test, vars_at. cbn [phase_diff].
    apply andb_false_intro1. apply Z.ltb_ge. exact Hp.
  - apply List.Forall_app in Hsmall. destruct Hsmall as [Hsuf Ha].
    apply List.Forall_inv in Ha.
    rewrite List.app_assoc in Hq |- *.
    change ((push_back pts p ++ suf) ++ [a]) with (push_back (push_back pts p ++ suf) a) in *.
    rewrite back_push_back in Hq. injection Hq as <-.
    destruct (back (push_back pts p ++ suf)) as [y|] eqn:Hy.
    + destruct (back_Some _ Hy) as [rest Hrest].
      unfold vars_at at 1. rewrite Hrest.
      rewrite overflow_loop_step by exact Ha.
      rewrite <- Hrest. rewrite (IH (push_back ov a) y Hsuf eq_refl).
      rewrite List.rev_app_distr. cbn [List.rev List.app]. unfold push_back.
      now rewrite <- List.app_assoc.
    + apply back_None in Hy. unfold push_back in Hy.
      destruct pts; discriminate.
Qed.

(** When every point of the scan is within half a turn after the phase,
    the loop empties the scan and then reads its last point. *)
Lemma overflow_loop_exhausts phase :
  forall pts ov q,
  pts <> [] ->
  List.Forall (fun r => phase_diff_of phase (azimuth_of r) < 18000) pts ->
  back pts = Some q ->
  exists caz pd,
    overflow_loop phase (vars_at phase pts ov q)
    = LoopAbort EmptyBack
        {| scan_points := []; overflow_points := ov ++ List.rev pts;
           current_azimuth := caz; phase_diff := pd |}.
Proof.
  induction pts as [|a pts IH] using List.rev_ind; intros ov q Hne Hsmall Hq; [easy|].
  apply List.Forall_app in Hsmall. destruct Hsmall as [Hpts Ha].
  apply List.Forall_inv in Ha.
  change (pts ++ [a]) with (push_back pts a) in *.
  rewrite back_push_back in Hq. injection Hq as <-.
  replace (List.rev (push_back pts a)) with (a :: List.rev pts)
    by (unfold push_back; now rewrite List.rev_app_distr).
  destruct (back pts) as [y|] eqn:Hy.
  - destruct (back_Some _ Hy) as [rest Hrest].
    unfold vars_at at 1. rewrite Hrest.
    rewrite overflow_loop_step by exact Ha. rewrite <- Hrest.
    destruct (IH (push_back ov a) y) as (caz & pd & Hrun);
      [intros ->; discriminate | exact Hpts | reflexivity |].
    exists caz, pd. rewrite Hrun. unfold push_back. now rewrite <- List.app_assoc.
  - apply back_None in Hy. subst pts. cbn [push_back List.app].
    eexists _, _. unfold vars_at. rewrite overflow_loop_last by exact Ha.
    reflexivity.
Qed.

(** The 16-bit difference of the code is the difference of the
    specification when the azimuth fits 16 bits and the phase is at most a
    turn. *)
Lemma phase_diff_of_spec phase p :
  0 <= phase <= 36000 -> 0 <= azimuth p < 65536 ->
  phase_diff_of phase (azimuth_of p) = spec_diff phase (azimuth p).
Proof.
  intros Hph Haz. unfold phase_diff_of, azimuth_of, spec_diff, Cxx.to_uint16, Cxx.rem.
  rewrite (Z.mod_small (azimuth p)) by lia.
  rewrite Z.rem_mod_nonneg by lia.
  apply Z.mod_small.
  pose proof (Z.mod_pos_bound (36000 + azimuth p - phase) 36000). lia.
Qed.

(* ===================================================================== *)
(** ** The segmenter of the specification *)
(* ===================================================================== *)

Lemma spec_backward_scan_defers phase suf :
  List.Forall (fun r => spec_diff phase (azimuth r) < 18000) suf ->
  forall rest carry,
  spec_backward_scan phase (List.rev suf ++ rest) carry
  = spec_backward_scan phase rest (carry ++ List.rev suf).
Proof.
  induction suf as [|a suf IH] using List.rev_ind; intros Hsmall rest carry.
  - cbn. now rewrite List.app_nil_r.
  - apply List.Forall_app in Hsmall. destruct Hsmall as [Hsuf Ha].
    apply List.Forall_inv in Ha.
    rewrite List.rev_app_distr. cbn [List.rev List.app spec_backward_scan].
    apply Z.ltb_lt in Ha. rewrite Ha.
    rewrite IH by exact Hsuf. now rewrite <- List.app_assoc.
Qed.

Lemma spec_segment_stops phase pts p suf :
  18000 <= spec_diff phase (azimuth p) ->
  List.Forall (fun r => spec_diff phase (azimuth r) < 18000) suf ->
  spec_segment phase (push_back pts p ++ suf) = (push_back pts p, List.rev suf).
Proof.
  intros Hp Hsuf. unfold spec_segment, push_back.
  rewrite List.rev_app_distr, spec_backward_scan_defers by exact Hsuf.
  rewrite List.rev_app_distr. cbn [List.rev List.app spec_backward_scan].
  apply Z.ltb_ge in Hp. rewrite Hp.
  cbn [List.rev List.app]. now rewrite List.rev_involutive.
Qed.

Lemma spec_segment_exhausts phase raw :
  List.Forall (fun r => spec_diff phase (azimuth r) < 18000) raw ->
  spec_segment phase raw = ([], List.rev raw).
Proof.
  intros Hsmall. unfold spec_segment.
  rewrite <- (List.app_nil_r (List.rev raw)) at 1.
  now rewrite spec_backward_scan_defers.
Qed.

(** A buffer with a point half a turn or more past the phase splits at the
    last such point. *)
Lemma split_at_last_far (d : PointXYZIRADT -> Z) (raw : list PointXYZIRADT) :
  List.Exists (fun r => 18000 <= d r) raw ->
  exists pts p suf,
    raw = push_back pts p ++ suf /\ 18000 <= d p /\
    List.Forall (fun r => d r < 18000) suf.
Proof.
  induction raw as [|a raw IH] using List.rev_ind; intros Hex.
  - inversion Hex.
  - destruct (Z_lt_ge_dec (d a) 18000) as [Hlt|Hge].
    + apply List.Exists_app in Hex. destruct Hex as [Hex|Hex].
      * destruct (IH Hex) as (pts & p & suf & -> & Hp & Hsuf).
        exists pts, p, (suf ++ [a]). repeat split; auto.
        -- now rewrite List.app_assoc.
        -- apply List.Forall_app. split; auto.
      * inversion Hex as [? ? Ha|? ? Ha]; subst; [lia|inversion Ha].
    + exists raw, a, []. repeat split; auto.
      * now rewrite List.app_nil_r.
      * lia.
Qed.

(* ===================================================================== *)
(** ** The segmenter of the node *)
(* ===================================================================== *)

Section Segmenter.
Context {ext : Collaborators}.
Implicit Types (w : World) (scanMsg : VelodyneScan).

Ltac run :=
  unfold defined, when, orelse, subscribed, publish;
  unfold bind, ret, abort, gets, modify, emit, get_subscription_count;
  cbn beta iota.

Lemma remove_overflow_points_nil phase w :
  remove_overflow_points phase [] w = Returns [] w.
Proof. reflexivity. Qed.

Lemma remove_overflow_points_stops phase pts p suf w :
  18000 <= phase_diff_of phase (azimuth_of p) ->
  List.Forall (fun r => phase_diff_of phase (azimuth_of r) < 18000) suf ->
  let ov := _overflow_buffer (node w) in
  let carry := points ov ++ List.rev suf in
  remove_overflow_points phase (push_back pts p ++ suf) w
  = Returns (push_back pts p)
      {| node := set_overflow_buffer
                   (with_points ov carry (Cxx.to_uint32 (size carry))) (node w);
         trace := trace w; queries := queries w |}.
Proof.
  intros Hp Hsuf ov carry. unfold remove_overflow_points.
  assert (Hne : push_back pts p ++ suf <> []) by (unfold push_back; now destruct pts).
  rewrite (proj2 (size_pos_iff _) Hne).
  destruct (back (push_back pts p ++ suf)) as [q|] eqn:Hq;
    [|apply back_None in Hq; contradiction].
  run. fold (vars_at phase (push_back pts p ++ suf) (points (_overflow_buffer (node w))) q).
  rewrite (@overflow_loop_stops phase pts p (points (_overflow_buffer (node w))) Hp suf q Hsuf Hq).
  reflexivity.
Qed.

Lemma remove_overflow_points_exhausts phase pts w :
  pts <> [] ->
  List.Forall (fun r => phase_diff_of phase (azimuth_of r) < 18000) pts ->
  let ov := _overflow_buffer (node w) in
  remove_overflow_points phase pts w
  = Aborts EmptyBack
      {| node := set_overflow_buffer
                   (with_points ov (points ov ++ List.rev pts) (width ov)) (node w);
         trace := trace w; queries := queries w |}.
Proof.
  intros Hne Hsmall ov. unfold remove_overflow_points.
  rewrite (proj2 (size_pos_iff _) Hne).
  destruct (back pts) as [q|] eqn:Hq; [|apply back_None in Hq; contradiction].
  run. fold (vars_at phase pts (points (_overflow_buffer (node w))) q).
  destruct (@overflow_loop_exhausts phase pts (points (_overflow_buffer (node w))) q Hne Hsmall Hq)
    as (caz & pd & ->).
  reflexivity.
Qed.

(** The segmenter up to the loop: the scan holds the overflow buffer in
    reverse followed by the decoded points, and the buffer is empty. *)
Lemma segment_unfold scanMsg w phase :
  phase_of (config_ (node w)) = Some phase ->
  segment scanMsg w
  = remove_overflow_points phase (raw_points w scanMsg) (after_segment w scanMsg [] 0).
Proof.
  intros Hphase. unfold segment. run.
  rewrite push_back_from_rev. cbn [points new_PointCloud List.app].
  unfold after_segment, segment_calls, raw_points.
  destruct (save_test_vector_ (node w)) eqn:Hsave; run; cbn; rewrite ?Hsave; cbn;
    rewrite Hphase; cbn; rewrite <- ?List.app_assoc; reflexivity.
Qed.

Lemma segment_no_phase scanMsg w :
  phase_of (config_ (node w)) = None ->
  segment scanMsg w = Aborts FloatToInteger (after_segment w scanMsg [] 0).
Proof.
  intros Hphase. unfold segment. run.
  rewrite push_back_from_rev. cbn [points new_PointCloud List.app].
  unfold after_segment, segment_calls, raw_points.
  destruct (save_test_vector_ (node w)) eqn:Hsave; run; cbn; rewrite ?Hsave; cbn;
    rewrite Hphase; cbn; rewrite <- ?List.app_assoc; reflexivity.
Qed.

Lemma after_segment_again scanMsg w carry wd carry' wd' :
  {| node := set_overflow_buffer
               (with_points (_overflow_buffer (node (after_segment w scanMsg carry wd)))
                  carry' wd')
               (node (after_segment w scanMsg carry wd));
     trace := trace (after_segment w scanMsg carry wd);
     queries := queries (after_segment w scanMsg carry wd) |}
  = after_segment w scanMsg carry' wd'.
Proof.
  unfold after_segment. cbn. destruct (save_test_vector_ (node w)); reflexivity.
Qed.

(** The three ways a call of the segmenter ends, by the points it works
    on: there is none; the backward scan stops on a point [p]; or every
    point is deferred and the scan is exhausted. *)
Lemma segment_cases scanMsg w phase :
  phase_of (config_ (node w)) = Some phase ->
  let raw := raw_points w scanMsg in
  let far r := 18000 <= phase_diff_of phase (azimuth_of r) in
  let near r := phase_diff_of phase (azimuth_of r) < 18000 in
  (raw = [] /\ segment scanMsg w = Returns [] (after_segment w scanMsg [] 0))
  \/ (exists pts p suf,
        raw = push_back pts p ++ suf /\ far p /\ List.Forall near suf /\
        segment scanMsg w
        = Returns (push_back pts p)
            (after_segment w scanMsg (List.rev suf) (Cxx.to_uint32 (size (List.rev suf)))))
  \/ (raw <> [] /\ List.Forall near raw /\
      segment scanMsg w
      = Aborts EmptyBack (after_segment w scanMsg (List.rev raw) 0)).
Proof.
  intros Hphase raw far near. rewrite (segment_unfold scanMsg w Hphase). fold raw.
  destruct (List.Forall_Exists_dec near (fun r => Z_lt_ge_dec _ 18000) raw) as [Hall|Hex].
  - destruct raw as [|a raw'] eqn:Hraw.
    + left. split; reflexivity.
    + right; right. split; [discriminate|]. split; [exact Hall|].
      rewrite remove_overflow_points_exhausts by (auto; discriminate).
      rewrite after_segment_again. reflexivity.
  - right; left.
    assert (Hex' : List.Exists far raw).
    { apply List.Exists_exists in Hex. destruct Hex as (r & Hin & Hr).
      apply List.Exists_exists. exists r. split; [exact Hin|]. unfold far, near in *. lia. }
    destruct (split_at_last_far (fun r => phase_diff_of phase (azimuth_of r)) Hex')
      as (pts & p & suf & Hsplit & Hp & Hsuf).
    exists pts, p, suf. repeat split; auto.
    rewrite Hsplit, remove_overflow_points_stops by assumption.
    cbn zeta. rewrite after_segment_again. reflexivity.
Qed.

End Segmenter.

(* ===================================================================== *)
(** ** Properties of the segmenter *)
(* ===================================================================== *)

Section SegmenterProperties.
Context {ext : Collaborators}.
Implicit Types (w : World) (scanMsg : VelodyneScan).

Lemma after_segment_overflow scanMsg w carry wd :
  points (_overflow_buffer (node (after_segment w scanMsg carry wd))) = carry.
Proof. reflexivity. Qed.

Lemma after_segment_data scanMsg w carry wd :
  data_ (node (after_segment w scanMsg carry wd)) = data_ (node w).
Proof. unfold after_segment. cbn. now destruct (save_test_vector_ (node w)). Qed.

(** One call of the segmenter that returns neither creates nor destroys a
    point, and leaves the decoder as it was. *)
Lemma segment_conserves scanMsg w closed w' :
  segment scanMsg w = Returns closed w' ->
  Permutation
    (points (_overflow_buffer (node w)) ++ unpack_all (data_ (node w)) (packets scanMsg))
    (closed ++ points (_overflow_buffer (node w')))
  /\ data_ (node w') = data_ (node w).
Proof.
  intros Hrun.
  destruct (phase_of (config_ (node w))) as [phase|] eqn:Hphase.
  2:{ rewrite (segment_no_phase scanMsg w Hphase) in Hrun. discriminate. }
  assert (Hraw : Permutation
            (points (_overflow_buffer (node w)) ++ unpack_all (data_ (node w)) (packets scanMsg))
            (raw_points w scanMsg)).
  { unfold raw_points. apply Permutation_app_tail, Permutation_rev. }
  destruct (segment_cases scanMsg w Hphase)
    as [[Hnil Hseg] | [(pts & p & suf & Hsplit & _ & _ & Hseg) | (_ & _ & Hseg)]];
    rewrite Hseg in Hrun; try discriminate;
    injection Hrun as <- <-; rewrite after_segment_overflow, after_segment_data;
    (split; [|reflexivity]).
  - rewrite Hraw, Hnil. constructor.
  - rewrite Hraw, Hsplit. apply Permutation_app_head, Permutation_rev.
Qed.

(** A call of the segmenter returns exactly when the phase converts and
    the scan from the tail has a point to stop on, or no point at all. *)
Lemma segment_returns_iff scanMsg w phase :
  phase_of (config_ (node w)) = Some phase ->
  (exists closed w', segment scanMsg w = Returns closed w')
  <-> (raw_points w scanMsg = [] \/
       List.Exists (fun r => 18000 <= phase_diff_of phase (azimuth_of r))
                   (raw_points w scanMsg)).
Proof.
  intros Hphase.
  destruct (segment_cases scanMsg w Hphase)
    as [[Hnil Hseg] | [(pts & p & suf & Hsplit & Hp & _ & Hseg) | (Hne & Hnear & Hseg)]].
  - split; [auto | intros _; eauto].
  - split; [intros _ | intros _; eauto].
    right. rewrite Hsplit. apply List.Exists_app. left.
    unfold push_back. apply List.Exists_app. right. now constructor.
  - split.
    + intros (closed & w' & Hrun). rewrite Hseg in Hrun. discriminate.
    + intros [Hnil|Hex]; [contradiction|]. exfalso.
      apply List.Exists_exists in Hex. destruct Hex as (r & Hin & Hr).
      pose proof (proj1 (List.Forall_forall _ _) Hnear r Hin) as Hlt. cbn beta in Hlt. lia.
Qed.

(** C5.  Conservation: over any sequence of calls of the segmenter that
    return, the points in the overflow buffer before the first call
    together with the points decoded from all the batches are, as a
    multiset, the points of the closed scans together with the points in
    the overflow buffer after the last call. *)
Theorem segmenter_conserves_points :
  forall (batches : list VelodyneScan) w scans w',
  segment_all batches w = Returns scans w' ->
  Permutation
    (points (_overflow_buffer (node w))
     ++ List.concat (List.map (fun m => unpack_all (data_ (node w)) (packets m)) batches))
    (List.concat scans ++ points (_overflow_buffer (node w'))).
Proof.
  induction batches as [|scanMsg rest IH]; intros w scans w' Hrun.
  - injection Hrun as <- <-. cbn. now rewrite List.app_nil_r.
  - cbn [segment_all] in Hrun. unfold bind in Hrun.
    destruct (segment scanMsg w) as [closed w1|f w1] eqn:Hseg; [|discriminate].
    destruct (segment_all rest w1) as [more w2|f w2] eqn:Hrest; [|discriminate].
    injection Hrun as <- <-.
    destruct (segment_conserves _ _ Hseg) as [Hone Hdata].
    specialize (IH _ _ _ Hrest). rewrite Hdata in IH.
    cbn [List.map List.concat].
    rewrite List.app_assoc, Hone, <- List.app_assoc, IH, List.app_assoc.
    reflexivity.
Qed.

Lemma phase_of_integral (c : Config) r :
  Cxx.integral true (scan_phase c * 100)%float = Some r -> 0 <= r < 36000 ->
  phase_of c = Some r /\ spec_phase (scan_phase c) = Some r.
Proof.
  intros Hr Hrange. unfold phase_of, spec_phase, Cxx.round_to_uint16. rewrite Hr. cbn.
  replace (0 <=? r) with true by (symmetry; apply Z.leb_le; lia).
  replace (r <=? 65535) with true by (symmetry; apply Z.leb_le; lia).
  cbn. now rewrite Z.mod_small by lia.
Qed.

(** C1 (as the code has it).  When the segmenter has points to work on and
    every one of them is within half a turn after the phase, the backward
    scan moves them all to the overflow buffer and then reads the last
    point of the scan it has emptied: the call stops on an access outside
    the vector instead of returning an empty closed scan. *)
Theorem segment_exhausted_reads_emptied_buffer :
  forall scanMsg w phase,
  phase_of (config_ (node w)) = Some phase -> phase <= 36000 ->
  raw_points w scanMsg <> [] ->
  List.Forall (fun p => 0 <= azimuth p < 65536 /\ spec_diff phase (azimuth p) < 18000)
              (raw_points w scanMsg) ->
  exists w',
    segment scanMsg w = Aborts EmptyBack w' /\
    points (_overflow_buffer (node w')) = List.rev (raw_points w scanMsg).
Proof.
  intros scanMsg w phase Hphase Hle Hne Hall.
  assert (H0 : 0 <= phase).
  { unfold phase_of, Cxx.round_to_uint16 in Hphase.
    destruct (Cxx.integral true _) as [r|]; [|discriminate].
    destruct (0 <=? r) eqn:Hr; cbn in Hphase; [|discriminate].
    destruct (r <=? 65535); [|discriminate].
    injection Hphase as <-. now apply Z.leb_le. }
  destruct (segment_cases scanMsg w Hphase)
    as [[Hnil _] | [(pts & p & suf & Hsplit & Hp & _ & _) | (_ & _ & Hseg)]].
  - contradiction.
  - exfalso. rewrite Hsplit in Hall.
    apply List.Forall_app in Hall. destruct Hall as [Hall _].
    apply List.Forall_app in Hall. destruct Hall as [_ Hall].
    apply List.Forall_inv in Hall. destruct Hall as [Haz Hnear].
    rewrite phase_diff_of_spec in Hp by lia. lia.
  - eexists. split; [exact Hseg|reflexivity].
Qed.

(** C4.  The segmenter is the backward scan of the specification.  With
    the phase [r = round(scan_phase * 100)] in 0..35999 (so that the
    16-bit phase of the code is [r mod 36000]) and azimuths that fit 16
    bits (as any azimuth in 0..35999 does), whenever the scan from the
    tail meets a point with [diff >= 18000], or there is no point at all,
    the call returns the closed scan of the specification and leaves its
    carry-over in the overflow buffer.  The witness is the scenario of the
    specification: phase 0 and azimuths 100, 200, 35900, 35950. *)
Theorem segment_implements_backward_scan :
  forall scanMsg w r,
  Cxx.integral true (scan_phase (config_ (node w)) * 100)%float = Some r ->
  0 <= r < 36000 ->
  List.Forall (fun p => 0 <= azimuth p < 65536) (raw_points w scanMsg) ->
  raw_points w scanMsg = [] \/
    List.Exists (fun p => 18000 <= spec_diff r (azimuth p)) (raw_points w scanMsg) ->
  phase_of (config_ (node w)) = Some r /\
  spec_phase (scan_phase (config_ (node w))) = Some r /\
  exists w',
    segment scanMsg w = Returns (fst (spec_segment r (raw_points w scanMsg))) w' /\
    points (_overflow_buffer (node w')) = snd (spec_segment r (raw_points w scanMsg)).
Proof.
  intros scanMsg w r Hr Hrange Haz Hstop.
  destruct (phase_of_integral _ Hr Hrange) as [Hphase Hspec].
  split; [exact Hphase|]. split; [exact Hspec|].
  assert (Hdiff : forall p, List.In p (raw_points w scanMsg) ->
            phase_diff_of r (azimuth_of p) = spec_diff r (azimuth p)).
  { intros p Hin. apply phase_diff_of_spec; [lia|].
    exact (proj1 (List.Forall_forall _ _) Haz p Hin). }
  destruct (segment_cases scanMsg w Hphase)
    as [[Hnil Hseg] | [(pts & p & suf & Hsplit & Hp & Hsuf & Hseg) | (Hne & Hnear & _)]].
  - rewrite Hnil. eexists. split; [exact Hseg|reflexivity].
  - assert (Hspec_run : spec_segment r (raw_points w scanMsg)
                        = (push_back pts p, List.rev suf)).
    { rewrite Hsplit. apply spec_segment_stops.
      - rewrite <- Hdiff; [exact Hp|].
        rewrite Hsplit. unfold push_back. rewrite !List.in_app_iff. cbn. auto.
      - apply List.Forall_forall. intros q Hq.
        rewrite <- Hdiff.
        + exact (proj1 (List.Forall_forall _ _) Hsuf q Hq).
        + rewrite Hsplit. rewrite List.in_app_iff. auto. }
    rewrite Hspec_run. eexists. split; [exact Hseg|reflexivity].
  - exfalso. destruct Hstop as [Hnil|Hex]; [contradiction|].
    apply List.Exists_exists in Hex. destruct Hex as (q & Hin & Hq).
    pose proof (proj1 (List.Forall_forall _ _) Hnear q Hin) as Hlt. cbn beta in Hlt.
    rewrite (Hdiff q Hin) in Hlt. lia.
Qed.

End SegmenterProperties.

(* ===================================================================== *)
(** ** The view composer, block by block *)
(* ===================================================================== *)

Section Composer.
Context {ext : Collaborators}.
Implicit Types (w : World) (scanMsg : VelodyneScan) (sink : Sink).

Ltac run :=
  unfold defined, when, orelse, subscribed, publish;
  unfold bind, ret, abort, gets, modify, emit, get_subscription_count;
  cbn beta iota.

Lemma ltb_wants sink p k : (0 <? sink p k)%nat = true -> wants sink p.
Proof. intros H. exists k. now apply Nat.ltb_lt. Qed.

Lemma unwanted_not_wants sink p : unwanted sink p -> ~ wants sink p.
Proof. intros Hu [k Hk]. rewrite (Hu k) in Hk. lia. Qed.

Lemma calls_of_observed {A} (m : M A) w l :
  trace (world_of (m w)) = trace w ++ l -> calls_of m w = l.
Proof.
  intros H. unfold calls_of. rewrite H.
  rewrite List.skipn_app, List.skipn_all, Nat.sub_diag. reflexivity.
Qed.

Ltac tests :=
  cbn [node trace queries];
  repeat match goal with
         | |- context [(0 <? ?s ?p ?k)%nat] =>
             let H := fresh "Hq" in
             destruct (0 <? s p k)%nat eqn:H; cbn beta iota; cbn [node trace queries]
         end.

Ltac side :=
  repeat split; intros Hb; try discriminate Hb; clear Hb;
  eauto using ltb_wants.

Ltac finish :=
  eexists; split;
  [cbn [List.app]; rewrite <- ?List.app_assoc, ?List.app_nil_r; reflexivity | side].

Ltac close b b1 b2 := exists b, b1, b2; finish.

Lemma valid_view_runs sink scan w :
  exists (b b1 b2 : bool) q',
    valid_view sink scan w
    = Returns (if b then valid_of scan (node w) else new_PointCloud)
        (observed w (if b then valid_calls scan (node w) b1 b2 else []) q')
    /\ (b = true -> wants sink velodyne_points_pub_ \/ wants sink velodyne_points_ex_pub_
                    \/ wants sink velodyne_points_combined_ex_pub_)
    /\ (b1 = true -> wants sink velodyne_points_pub_)
    /\ (b2 = true -> wants sink velodyne_points_ex_pub_).
Proof.
  unfold valid_view, observed, valid_calls, valid_of. run. tests;
  first [ close true true true | close true true false | close true false true
        | close true false false | close false false false ].
Qed.

Lemma invalid_near_view_runs sink scan w :
  exists (b b1 : bool) q',
    invalid_near_view sink scan w
    = Returns (if b then invalid_near_of scan (node w) else new_PointCloud)
        (observed w (if b then invalid_near_calls scan (node w) b1 else []) q')
    /\ (b = true -> wants sink velodyne_points_invalid_near_pub_
                    \/ wants sink velodyne_points_combined_ex_pub_)
    /\ (b1 = true -> wants sink velodyne_points_invalid_near_pub_).
Proof.
  unfold invalid_near_view, observed, invalid_near_calls, invalid_near_of. run. tests;
  first [ exists true, true; finish | exists true, false; finish
        | exists false, false; finish ].
Qed.

Lemma combined_view_runs sink valid invalid_near w :
  exists (b : bool) q',
    combined_view sink valid invalid_near w
    = Returns (if b then combine valid invalid_near else new_PointCloud)
        (observed w
           (if b then [call_publish velodyne_points_combined_ex_pub_
                         (PointCloud2_XYZIRADT (combine valid invalid_near))]
            else []) q')
    /\ (b = true -> wants sink velodyne_points_combined_ex_pub_).
Proof.
  unfold combined_view, observed. run. tests;
  first [ exists true; finish | exists false; finish ].
Qed.

Lemma model_marker_runs sink scanMsg w :
  exists (b : bool) q',
    model_marker sink scanMsg w
    = Returns tt
        (observed w
           (if b then [call_publish marker_array_pub_ (MarkerArray (scan_header scanMsg))]
            else []) q')
    /\ (b = true -> wants sink marker_array_pub_).
Proof.
  unfold model_marker, observed. run. tests;
  first [ exists true; finish | exists false; finish ].
Qed.

(** Lines 269-331 always run to their end, leave the node as it is, and
    make the calls that the outcomes of their tests select. *)
Lemma compose_views_runs sink scanMsg scan w :
  exists a q',
    compose_views sink scanMsg scan w
    = Returns (views_locals scan (node w) a)
        (observed w (views_calls scanMsg scan (node w) a) q')
    /\ answered sink a.
Proof.
  unfold compose_views.
  destruct (valid_view_runs sink scan w) as (bv & b1 & b2 & qv & Hv & Wv & W1 & W2).
  unfold bind at 1. rewrite Hv. cbn beta iota.
  unfold bind at 1.
  match goal with
  | |- context [invalid_near_view sink scan ?w0] =>
      destruct (invalid_near_view_runs sink scan w0) as (bi & bi1 & qi & Hi & Wi & Wi1)
  end.
  rewrite Hi. cbn beta iota.
  unfold bind at 1.
  match goal with
  | |- context [combined_view sink ?v ?i ?w0] =>
      destruct (combined_view_runs sink v i w0) as (bc & qc & Hc & Wc)
  end.
  rewrite Hc. cbn beta iota.
  unfold bind at 1.
  match goal with
  | |- context [model_marker sink scanMsg ?w0] =>
      destruct (model_marker_runs sink scanMsg w0) as (bm & qm & Hm & Wm)
  end.
  rewrite Hm. cbn beta iota.
  exists (mkAnswers bv b1 b2 bi bi1 bc bm), qm. split.
  - unfold ret, observed, views_locals, views_calls. cbn.
    rewrite <- !List.app_assoc. reflexivity.
  - unfold answered. cbn. tauto.
Qed.

Lemma stamp_scan_unfold scanMsg pts w :
  stamp_scan scanMsg pts w
  = match front pts with
    | None => Aborts EmptyFront w
    | Some p =>
        match toChronoNanoSeconds (time_stamp p) with
        | None => Aborts FloatToInteger w
        | Some ns => Returns (stamped scanMsg pts ns) w
        end
    end.
Proof.
  unfold stamp_scan. run. destruct (front pts) as [p|]; [|reflexivity].
  cbn beta iota. destruct (toChronoNanoSeconds (time_stamp p)); reflexivity.
Qed.

Lemma closed_scan_idle sink scanMsg w :
  cloud_wanted sink (queries w) = false ->
  exists q', closed_scan sink scanMsg w = Returns new_PointCloud (asked w q').
Proof.
  unfold cloud_wanted, closed_scan, asked. intros Hidle.
  apply orb_false_elim in Hidle. destruct Hidle as [Hidle H4].
  apply orb_false_elim in Hidle. destruct Hidle as [Hidle H3].
  apply orb_false_elim in Hidle. destruct Hidle as [H1 H2].
  run. cbn [node trace queries]. rewrite H1. cbn beta iota. cbn [node trace queries].
  rewrite H2. cbn beta iota. cbn [node trace queries].
  rewrite H3. cbn beta iota. cbn [node trace queries].
  rewrite H4. cbn beta iota. cbn [node trace queries].
  eexists. reflexivity.
Qed.

Lemma closed_scan_busy sink scanMsg w :
  cloud_wanted sink (queries w) = true ->
  (wants sink velodyne_points_pub_ \/ wants sink velodyne_points_ex_pub_ \/
   wants sink velodyne_points_invalid_near_pub_ \/
   wants sink velodyne_points_combined_ex_pub_)
  /\ exists q',
       closed_scan sink scanMsg w
       = bind (segment scanMsg) (stamp_scan scanMsg) (asked w q').
Proof.
  unfold cloud_wanted, closed_scan, asked. intros Hbusy.
  run. tests; cbn in Hbusy; try discriminate Hbusy;
    (split; [eauto 6 using ltb_wants | eexists; reflexivity]).
Qed.

(** A cycle that finds no subscriber at lines 214-218 goes straight to
    lines 269-331 with an empty scan. *)
Lemma processScan_idle sink scanMsg w :
  cloud_wanted sink (queries w) = false ->
  exists a q',
    processScan sink scanMsg w
    = Returns (views_locals new_PointCloud (node w) a)
        (observed w (views_calls scanMsg new_PointCloud (node w) a) q')
    /\ answered sink a.
Proof.
  intros Hidle. destruct (closed_scan_idle sink scanMsg w Hidle) as [q1 Hscan].
  unfold processScan, bind. rewrite Hscan.
  destruct (compose_views_runs sink scanMsg new_PointCloud (asked w q1))
    as (a & q' & Hviews & Ha).
  exists a, q'. split; [exact Hviews | exact Ha].
Qed.

(** A cycle that finds a subscriber at lines 214-218 runs the segmenter,
    stamps the closed scan and composes its views; it stops early where
    the segmenter stops, where the closed scan has no first point, and
    where the time stamp of the first point does not convert. *)
Lemma processScan_busy sink scanMsg w :
  cloud_wanted sink (queries w) = true ->
  exists q1,
    match segment scanMsg (asked w q1) with
    | Aborts f w1 => processScan sink scanMsg w = Aborts f w1
    | Returns pts w1 =>
        match front pts with
        | None => processScan sink scanMsg w = Aborts EmptyFront w1
        | Some p =>
            match toChronoNanoSeconds (time_stamp p) with
            | None => processScan sink scanMsg w = Aborts FloatToInteger w1
            | Some ns =>
                exists a q',
                  processScan sink scanMsg w
                  = Returns (views_locals (stamped scanMsg pts ns) (node w1) a)
                      (observed w1
                         (views_calls scanMsg (stamped scanMsg pts ns) (node w1) a) q')
                  /\ answered sink a
            end
        end
    end.
Proof.
  intros Hbusy. destruct (closed_scan_busy sink scanMsg w Hbusy) as (_ & q1 & Hscan).
  exists q1.
  assert (Hrun : processScan sink scanMsg w
                 = bind (bind (segment scanMsg) (stamp_scan scanMsg))
                        (compose_views sink scanMsg) (asked w q1)).
  { unfold processScan. unfold bind at 1. rewrite Hscan. reflexivity. }
  rewrite Hrun. unfold bind.
  destruct (segment scanMsg (asked w q1)) as [pts w1|f w1]; [|reflexivity].
  rewrite stamp_scan_unfold.
  destruct (front pts) as [p|]; [|reflexivity].
  destruct (toChronoNanoSeconds (time_stamp p)) as [ns|]; [|reflexivity].
  apply compose_views_runs.
Qed.

(** Whatever way the segmenter ends, it has made its calls and no other,
    and has asked the sink nothing. *)
Lemma segment_observed scanMsg w :
  trace (world_of (segment scanMsg w)) = trace w ++ segment_calls w scanMsg
  /\ queries (world_of (segment scanMsg w)) = queries w.
Proof.
  destruct (phase_of (config_ (node w))) as [phase|] eqn:Hphase.
  - destruct (segment_cases scanMsg w Hphase)
      as [[_ Hseg] | [(pts & p & suf & _ & _ & _ & Hseg) | (_ & _ & Hseg)]];
      rewrite Hseg; split; reflexivity.
  - rewrite (segment_no_phase scanMsg w Hphase). split; reflexivity.
Qed.

(** The outcome and the calls of a cycle: without a subscriber at lines
    214-218 only lines 269-331 run; with one, the segmenter runs first,
    and the views follow when the closed scan could be stamped. *)
Lemma processScan_outcome sink scanMsg w :
  (cloud_wanted sink (queries w) = false /\
   exists a q',
     processScan sink scanMsg w
     = Returns (views_locals new_PointCloud (node w) a)
         (observed w (views_calls scanMsg new_PointCloud (node w) a) q')
     /\ answered sink a
     /\ calls_of (processScan sink scanMsg) w
        = views_calls scanMsg new_PointCloud (node w) a)
  \/
  (cloud_wanted sink (queries w) = true /\
   (wants sink velodyne_points_pub_ \/ wants sink velodyne_points_ex_pub_ \/
    wants sink velodyne_points_invalid_near_pub_ \/
    wants sink velodyne_points_combined_ex_pub_) /\
   exists q1,
     (exists f w',
        processScan sink scanMsg w = Aborts f w'
        /\ calls_of (processScan sink scanMsg) w = segment_calls w scanMsg)
     \/
     (exists pts p ns w1 a q',
        segment scanMsg (asked w q1) = Returns pts w1
        /\ front pts = Some p
        /\ toChronoNanoSeconds (time_stamp p) = Some ns
        /\ processScan sink scanMsg w
           = Returns (views_locals (stamped scanMsg pts ns) (node w1) a)
               (observed w1 (views_calls scanMsg (stamped scanMsg pts ns) (node w1) a) q')
        /\ answered sink a
        /\ calls_of (processScan sink scanMsg) w
           = segment_calls w scanMsg
             ++ views_calls scanMsg (stamped scanMsg pts ns) (node w1) a)).
Proof.
  destruct (cloud_wanted sink (queries w)) eqn:Hwanted.
  - right. split; [reflexivity|].
    destruct (closed_scan_busy sink scanMsg w Hwanted) as (Hwants & _).
    split; [exact Hwants|].
    destruct (processScan_busy sink scanMsg w Hwanted) as (q1 & Hrun).
    exists q1.
    destruct (segment_observed scanMsg (asked w q1)) as (Htrace & _).
    change (segment_calls (asked w q1) scanMsg) with (segment_calls w scanMsg) in Htrace.
    cbn [asked trace] in Htrace.
    destruct (segment scanMsg (asked w q1)) as [pts w1|f w1] eqn:Hseg;
      cbn [world_of] in Htrace.
    + destruct (front pts) as [p|] eqn:Hfront.
      * destruct (toChronoNanoSeconds (time_stamp p)) as [ns|] eqn:Hns.
        -- destruct Hrun as (a & q' & Hrun & Ha). right.
           exists pts, p, ns, w1, a, q'.
           do 3 (split; [first [assumption | reflexivity]|]).
           split; [exact Hrun|]. split; [exact Ha|].
           apply calls_of_observed. rewrite Hrun. unfold observed, world_of.
           cbn [trace]. rewrite Htrace, <- List.app_assoc. reflexivity.
        -- left. exists FloatToInteger, w1. split; [exact Hrun|].
           apply calls_of_observed. now rewrite Hrun.
      * left. exists EmptyFront, w1. split; [exact Hrun|].
        apply calls_of_observed. now rewrite Hrun.
    + left. exists f, w1. split; [exact Hrun|].
      apply calls_of_observed. now rewrite Hrun.
  - left. split; [reflexivity|].
    destruct (processScan_idle sink scanMsg w Hwanted) as (a & q' & Hrun & Ha).
    exists a, q'. split; [exact Hrun|]. split; [exact Ha|].
    apply calls_of_observed. now rewrite Hrun.
Qed.

(** What lines 269-331 call: each call answers to a subscriber, none is a
    call of the segmenter, and a cloud is published as the local it is
    built in. *)
Lemma views_calls_demanded sink scanMsg scan n a :
  answered sink a -> List.Forall (demanded sink) (views_calls scanMsg scan n a).
Proof.
  intros (Hv & H1 & H2 & Hi & Hi1 & Hc & Hm).
  unfold views_calls, valid_calls, invalid_near_calls.
  apply List.Forall_app; split;
    [|apply List.Forall_app; split; [|apply List.Forall_app; split]].
  - destruct (valid_wanted a); [specialize (Hv eq_refl)|constructor].
    constructor; [exact Hv|]. apply List.Forall_app. split.
    + destruct (points_wanted a); [specialize (H1 eq_refl)|constructor].
      constructor; [left; exact H1|]. constructor; [exact H1|constructor].
    + destruct (ex_wanted a); [specialize (H2 eq_refl)|constructor].
      constructor; [exact H2|constructor].
  - destruct (invalid_near_wanted a); [specialize (Hi eq_refl)|constructor].
    apply List.Forall_app. split.
    + constructor; [exact Hi|]. constructor; [exact Hi|constructor].
    + destruct (near_wanted a); [specialize (Hi1 eq_refl)|constructor].
      constructor; [right; exact Hi1|]. constructor; [exact Hi1|constructor].
  - destruct (combined_wanted a); [specialize (Hc eq_refl)|constructor].
    constructor; [exact Hc|constructor].
  - destruct (marker_wanted a); [specialize (Hm eq_refl)|constructor].
    constructor; [exact Hm|constructor].
Qed.

Ltac in_views H :=
  unfold views_calls, valid_calls, invalid_near_calls in H;
  rewrite !List.in_app_iff in H;
  repeat match type of H with
         | _ \/ _ => destruct H as [H|H]
         | List.In _ (if ?b then _ else _) => destruct b eqn:?
         | List.In _ (_ :: _) => destruct H as [H|H]
         | List.In _ (_ ++ _) => apply List.in_app_or in H
         | List.In _ [] => contradiction
         end;
  try discriminate H.

Lemma views_calls_no_segmenter scanMsg scan n a c :
  List.In c (views_calls scanMsg scan n a) ->
  match c with
  | call_setParameters _ _ _ _ | call_unpack_all _
  | call_writeInPackets _ | call_writeOutPointClouds _ _ => False
  | _ => True
  end.
Proof. intros H. in_views H; subst c; exact I. Qed.

Lemma views_calls_combined scanMsg scan n a m :
  List.In (call_publish velodyne_points_combined_ex_pub_ m) (views_calls scanMsg scan n a) ->
  combined_wanted a = true /\
  m = PointCloud2_XYZIRADT (combined_points_xyziradt (views_locals scan n a)).
Proof.
  intros H. in_views H. injection H as <-. split; [reflexivity|].
  unfold views_locals.
  cbn [combined_points_xyziradt valid_points_xyziradt invalid_near_points_filtered_xyziradt].
  match goal with Hc : combined_wanted a = true |- _ => rewrite Hc end. reflexivity.
Qed.

Lemma views_calls_ex scanMsg scan n a m :
  List.In (call_publish velodyne_points_ex_pub_ m) (views_calls scanMsg scan n a) ->
  m = PointCloud2_XYZIRADT (valid_points_xyziradt (views_locals scan n a)).
Proof.
  intros H. in_views H. injection H as <-.
  unfold views_locals. cbn [valid_points_xyziradt].
  match goal with Hc : valid_wanted a = true |- _ => rewrite Hc end. reflexivity.
Qed.

Lemma views_calls_invalid_near scanMsg scan n a m :
  List.In (call_publish velodyne_points_invalid_near_pub_ m) (views_calls scanMsg scan n a) ->
  m = PointCloud2_XYZIR
        (convert (invalid_near_points_filtered_xyziradt (views_locals scan n a))).
Proof.
  intros H. in_views H. injection H as <-.
  unfold views_locals. cbn [invalid_near_points_filtered_xyziradt].
  match goal with Hc : invalid_near_wanted a = true |- _ => rewrite Hc end. reflexivity.
Qed.

Lemma segment_calls_kind w scanMsg c :
  List.In c (segment_calls w scanMsg) ->
  match c with
  | call_unpack_all _ | call_writeInPackets _ | call_writeOutPointClouds _ _ => True
  | _ => False
  end.
Proof.
  unfold segment_calls. intros [<-|H]; [exact I|].
  destruct (save_test_vector_ (node w)); [|contradiction].
  destruct H as [<-|[<-|[]]]; exact I.
Qed.

(** Every call of a cycle answers to a subscriber found in that cycle. *)
Lemma processScan_demanded sink scanMsg w c :
  List.In c (calls_of (processScan sink scanMsg) w) -> demanded sink c.
Proof.
  intros Hin.
  destruct (processScan_outcome sink scanMsg w)
    as [(_ & a & q' & _ & Ha & Hcalls)
       | (_ & Hwants & q1 & [(f & w' & _ & Hcalls)
                            | (pts & p & ns & w1 & a & q' & _ & _ & _ & _ & Ha & Hcalls)])];
    rewrite Hcalls in Hin.
  - exact (proj1 (List.Forall_forall _ _) (@views_calls_demanded sink scanMsg _ _ a Ha) c Hin).
  - pose proof (@segment_calls_kind w scanMsg c Hin) as Hk.
    destruct c; try contradiction; exact Hwants.
  - apply List.in_app_or in Hin. destruct Hin as [Hin|Hin].
    + pose proof (@segment_calls_kind w scanMsg c Hin) as Hk.
      destruct c; try contradiction; exact Hwants.
    + exact (proj1 (List.Forall_forall _ _) (@views_calls_demanded sink scanMsg _ _ a Ha) c Hin).
Qed.

End Composer.

(* ===================================================================== *)
(** ** Properties of the processing cycle *)
(* ===================================================================== *)

Section CycleProperties.
Context {ext : Collaborators}.
Implicit Types (w : World) (scanMsg : VelodyneScan) (sink : Sink).

(** C2 (as the code has it).  A cycle that finds a subscriber and whose
    segmenter has no point to work on (empty overflow buffer, nothing
    decoded) reaches line 259 with an empty closed scan and reads its
    first point: the cycle stops on an access outside the vector instead
    of skipping the publication. *)
Theorem empty_scan_reads_first_point :
  forall sink scanMsg w phase,
  cloud_wanted sink (queries w) = true ->
  phase_of (config_ (node w)) = Some phase ->
  raw_points w scanMsg = [] ->
  exists w', processScan sink scanMsg w = Aborts EmptyFront w'.
Proof.
  intros sink scanMsg w phase Hwanted Hphase Hraw.
  destruct (processScan_busy sink scanMsg w Hwanted) as (q1 & Hrun).
  destruct (segment_cases scanMsg (asked w q1) Hphase)
    as [[_ Hseg] | [(pts & p & suf & Hsplit & _) | (Hne & _)]].
  - rewrite Hseg in Hrun. cbn in Hrun. eexists. exact Hrun.
  - exfalso. change (raw_points (asked w q1) scanMsg) with (raw_points w scanMsg) in Hsplit.
    rewrite Hraw in Hsplit. unfold push_back in Hsplit. destruct pts; discriminate.
  - exfalso. apply Hne. exact Hraw.
Qed.


(** C10.  A cycle in which each of the four cloud outputs answers the
    test of lines 214-218 with no subscriber returns, decodes nothing,
    starts from an empty scan, and leaves the node, and so its overflow
    buffer, as it was. *)
Theorem idle_cycle_discards_batch :
  forall sink scanMsg w,
  cloud_wanted sink (queries w) = false ->
  exists L w',
    processScan sink scanMsg w = Returns L w' /\
    node w' = node w /\
    _overflow_buffer (node w') = _overflow_buffer (node w) /\
    scan_points_xyziradt L = new_PointCloud /\
    (forall pk, ~ List.In (call_unpack_all pk) (calls_of (processScan sink scanMsg) w)).
Proof.
  intros sink scanMsg w Hidle.
  destruct (processScan_outcome sink scanMsg w)
    as [(_ & a & q' & Hret & _ & Hcalls) | (Hbusy & _)]; [|congruence].
  eexists _, _. split; [exact Hret|]. cbn. repeat split.
  intros pk Hin. rewrite Hcalls in Hin.
  exact (views_calls_no_segmenter _ _ _ _ _ Hin).
Qed.

(** C6.  Demand gating.  In every cycle: without a subscriber on the
    plain, the extended and the combined output, the range-valid
    extraction is not called; without a subscriber on the near-invalid and
    the combined output, neither the ring sort nor the near-invalid
    extraction is called; without a subscriber on the combined output, the
    merge is not done (nothing is published on that output and the
    combined cloud stays the new, empty cloud); and without a subscriber on
    any of the four outputs there is no filtering call at all. *)
Theorem demand_gates_every_computation :
  forall sink scanMsg w,
  (unwanted sink velodyne_points_pub_ -> unwanted sink velodyne_points_ex_pub_ ->
   unwanted sink velodyne_points_combined_ex_pub_ ->
   forall c mn mx,
     ~ List.In (call_extractValidPoints c mn mx) (calls_of (processScan sink scanMsg) w))
  /\
  (unwanted sink velodyne_points_invalid_near_pub_ ->
   unwanted sink velodyne_points_combined_ex_pub_ ->
   (forall c n, ~ List.In (call_sortZeroIndex c n) (calls_of (processScan sink scanMsg) w))
   /\ (forall c a n t,
        ~ List.In (call_extractInvalidNearPointsFiltered c a n t)
                  (calls_of (processScan sink scanMsg) w)))
  /\
  (unwanted sink velodyne_points_combined_ex_pub_ ->
   (forall m, ~ List.In (call_publish velodyne_points_combined_ex_pub_ m)
                        (calls_of (processScan sink scanMsg) w))
   /\ (forall L w', processScan sink scanMsg w = Returns L w' ->
                    combined_points_xyziradt L = new_PointCloud))
  /\
  (unwanted sink velodyne_points_pub_ -> unwanted sink velodyne_points_ex_pub_ ->
   unwanted sink velodyne_points_invalid_near_pub_ ->
   unwanted sink velodyne_points_combined_ex_pub_ ->
   forall c, List.In c (calls_of (processScan sink scanMsg) w) -> is_filtering c = false).
Proof.
  intros sink scanMsg w.
  pose proof (@processScan_demanded ext sink scanMsg w) as Hdem.
  split; [|split; [|split]].
  - intros U1 U2 U3 c mn mx Hin. apply Hdem in Hin. cbn in Hin.
    apply unwanted_not_wants in U1, U2, U3. tauto.
  - intros U1 U2. apply unwanted_not_wants in U1, U2.
    split; [intros c n Hin|intros c a n t Hin]; apply Hdem in Hin; cbn in Hin; tauto.
  - intros U. apply unwanted_not_wants in U. split.
    + intros m Hin. apply Hdem in Hin. cbn in Hin. tauto.
    + intros L w' Hrun.
      assert (Hno : forall a, answered sink a -> combined_wanted a = false).
      { intros a (_ & _ & _ & _ & _ & Hc & _).
        destruct (combined_wanted a); [exfalso; auto | reflexivity]. }
      destruct (processScan_outcome sink scanMsg w)
        as [(_ & a & q' & Hret & Ha & _)
           | (_ & _ & q1 & [(f & w1 & Hab & _)
                           | (pts & p & ns & w1 & a & q' & _ & _ & _ & Hret & Ha & _)])].
      * rewrite Hret in Hrun. injection Hrun as <- _.
        unfold views_locals. cbn. now rewrite (Hno a Ha).
      * rewrite Hab in Hrun. discriminate.
      * rewrite Hret in Hrun. injection Hrun as <- _.
        unfold views_locals. cbn. now rewrite (Hno a Ha).
  - intros U1 U2 U3 U4 c Hin. apply Hdem in Hin.
    apply unwanted_not_wants in U1, U2, U3, U4.
    destruct c; cbn in Hin |- *; try reflexivity; tauto.
Qed.

(** C7.  Whenever a cycle publishes the combined view, the cycle runs to
    its end and the published cloud is the combined cloud, whose points
    are the points of the range-valid cloud (the cloud the extended output
    carries) followed by the points of the near-invalid cloud (the cloud
    whose conversion the near-invalid output carries), whose height is 1,
    whose header is the header of the range-valid cloud, and whose width
    is the number of its points stored in 32 bits: the sum of the widths
    of the two clouds when each of them has its number of points as width
    and the sum fits 32 bits. *)
Theorem combined_view_is_concatenation :
  forall sink scanMsg w m,
  List.In (call_publish velodyne_points_combined_ex_pub_ m)
          (calls_of (processScan sink scanMsg) w) ->
  exists L w',
    processScan sink scanMsg w = Returns L w' /\
    m = PointCloud2_XYZIRADT (combined_points_xyziradt L) /\
    points (combined_points_xyziradt L)
    = points (valid_points_xyziradt L) ++ points (invalid_near_points_filtered_xyziradt L) /\
    height (combined_points_xyziradt L) = 1 /\
    header (combined_points_xyziradt L) = header (valid_points_xyziradt L) /\
    width (combined_points_xyziradt L)
    = Cxx.to_uint32 (size (points (valid_points_xyziradt L))
                     + size (points (invalid_near_points_filtered_xyziradt L))) /\
    (width (valid_points_xyziradt L) = size (points (valid_points_xyziradt L)) ->
     width (invalid_near_points_filtered_xyziradt L)
     = size (points (invalid_near_points_filtered_xyziradt L)) ->
     width (valid_points_xyziradt L) + width (invalid_near_points_filtered_xyziradt L)
     < 4294967296 ->
     width (combined_points_xyziradt L)
     = width (valid_points_xyziradt L) + width (invalid_near_points_filtered_xyziradt L)) /\
    (forall m', List.In (call_publish velodyne_points_ex_pub_ m')
                        (calls_of (processScan sink scanMsg) w) ->
                m' = PointCloud2_XYZIRADT (valid_points_xyziradt L)) /\
    (forall m', List.In (call_publish velodyne_points_invalid_near_pub_ m')
                        (calls_of (processScan sink scanMsg) w) ->
                m' = PointCloud2_XYZIR (convert (invalid_near_points_filtered_xyziradt L))).
Proof.
  intros sink scanMsg w m Hin.
  assert (Hviews : forall scan n a,
            List.In (call_publish velodyne_points_combined_ex_pub_ m)
                    (views_calls scanMsg scan n a) ->
            let L := views_locals scan n a in
            m = PointCloud2_XYZIRADT (combined_points_xyziradt L) /\
            points (combined_points_xyziradt L)
            = points (valid_points_xyziradt L)
              ++ points (invalid_near_points_filtered_xyziradt L) /\
            height (combined_points_xyziradt L) = 1 /\
            header (combined_points_xyziradt L) = header (valid_points_xyziradt L) /\
            width (combined_points_xyziradt L)
            = Cxx.to_uint32 (size (points (valid_points_xyziradt L))
                             + size (points (invalid_near_points_filtered_xyziradt L)))).
  { intros scan n a Hpub. destruct (views_calls_combined _ _ _ _ _ Hpub) as [Hc ->].
    unfold views_locals. cbn. rewrite Hc. cbn.
    repeat split. unfold insert_end, size. cbn. rewrite List.length_app. f_equal. lia. }
  assert (Hsum : forall L : Locals,
            width (combined_points_xyziradt L)
            = Cxx.to_uint32 (size (points (valid_points_xyziradt L))
                             + size (points (invalid_near_points_filtered_xyziradt L))) ->
            width (valid_points_xyziradt L) = size (points (valid_points_xyziradt L)) ->
            width (invalid_near_points_filtered_xyziradt L)
            = size (points (invalid_near_points_filtered_xyziradt L)) ->
            width (valid_points_xyziradt L) + width (invalid_near_points_filtered_xyziradt L)
            < 4294967296 ->
            width (combined_points_xyziradt L)
            = width (valid_points_xyziradt L)
              + width (invalid_near_points_filtered_xyziradt L)).
  { intros L Hw Hv Hn Hlt. rewrite Hw, Hv, Hn. unfold Cxx.to_uint32.
    apply Z.mod_small. rewrite Hv, Hn in Hlt.
    pose proof (size_nonneg (points (valid_points_xyziradt L))).
    pose proof (size_nonneg (points (invalid_near_points_filtered_xyziradt L))). lia. }
  destruct (processScan_outcome sink scanMsg w)
    as [(_ & a & q' & Hret & _ & Hcalls)
       | (_ & _ & q1 & [(f & w1 & _ & Hcalls)
                       | (pts & p & ns & w1 & a & q' & _ & _ & _ & Hret & _ & Hcalls)])];
    rewrite Hcalls in *.
  - destruct (Hviews _ _ _ Hin) as (Hm & Hpts & Hh & Hhd & Hw).
    eexists _, _. split; [exact Hret|]. repeat split; auto.
    + intros m' Hex. exact (views_calls_ex _ _ _ _ _ Hex).
    + intros m' Hnear. exact (views_calls_invalid_near _ _ _ _ _ Hnear).
  - exfalso. exact (@segment_calls_kind ext w scanMsg _ Hin).
  - assert (Hin' : List.In (call_publish velodyne_points_combined_ex_pub_ m)
                     (views_calls scanMsg (stamped scanMsg pts ns) (node w1) a)).
    { apply List.in_app_or in Hin. destruct Hin as [Hin|Hin]; [|exact Hin].
      exfalso. exact (@segment_calls_kind ext w scanMsg _ Hin). }
    destruct (Hviews _ _ _ Hin') as (Hm & Hpts & Hh & Hhd & Hw).
    eexists _, _. split; [exact Hret|]. repeat split; auto.
    + intros m' Hex. apply List.in_app_or in Hex. destruct Hex as [Hex|Hex].
      * exfalso. exact (@segment_calls_kind ext w scanMsg _ Hex).
      * exact (views_calls_ex _ _ _ _ _ Hex).
    + intros m' Hnear. apply List.in_app_or in Hnear. destruct Hnear as [Hnear|Hnear].
      * exfalso. exact (@segment_calls_kind ext w scanMsg _ Hnear).
      * exact (views_calls_invalid_near _ _ _ _ _ Hnear).
Qed.

End CycleProperties.

(* ===================================================================== *)
(** ** Properties of the reconfiguration handler *)
(* ===================================================================== *)

Section Reconfiguration.
Context {ext : Collaborators}.
Implicit Types (w : World) (p : list rclcpp_Parameter).

Ltac run :=
  unfold defined, when, orelse, subscribed, publish;
  unfold bind, ret, abort, gets, modify, emit, get_subscription_count;
  cbn beta iota.

Lemma copy_invalid_intensity_nil i w : copy_invalid_intensity i [] w = Returns tt w.
Proof. reflexivity. Qed.

(** The loop of lines 191-193 writes to the per-ring array only. *)
Lemma copy_invalid_intensity_config src :
  forall i w r w',
  copy_invalid_intensity i src w = Returns r w' -> config_ (node w') = config_ (node w).
Proof.
  induction src as [|d src IH]; intros i w r w' Hrun.
  - injection Hrun as _ <-. reflexivity.
  - cbn [copy_invalid_intensity] in Hrun. revert Hrun. run.
    destruct (at_put (invalid_intensity_array_ (node w)) i (Cxx.static_cast_float d))
      as [arr|]; cbn beta iota; [|intros Hrun; discriminate Hrun].
    intros Hrun. apply IH in Hrun. rewrite Hrun. reflexivity.
Qed.

Ltac params p :=
  repeat match goal with
         | |- context [find_name p ?name] =>
             let it := fresh "it" in
             destruct (find_name p name) as [it|] eqn:?; cbn beta iota
         | |- context [get_value_double ?it] =>
             destruct (get_value_double it) eqn:?; cbn beta iota
         | |- context [get_value_int ?it] =>
             destruct (get_value_int it) eqn:?; cbn beta iota
         | |- context [as_double_array ?it] =>
             destruct (as_double_array it) eqn:?; cbn beta iota
         end.

(** C3 (as the code has it).  Two ways in which a call of the handler that
    returns does not do what a partial update asks.  When the update has
    no [invalid_intensity], the per-ring array is not left as it was: it
    becomes all zeros.  When the update has [min_range], the fields
    [max_range], [view_direction] and [view_width] keep their prior
    values whether or not the update has them, as the tests of line
    170-173 stop at the first parameter found. *)
Theorem paramCallback_resets_and_short_circuits :
  forall p w r w',
  paramCallback p w = Returns r w' ->
  (find_name p "invalid_intensity" = None ->
   invalid_intensity_array_ (node w')
   = List.repeat 0%float (RawData.getNumLasers (data_ (node w))))
  /\ (find_name p "min_range" <> None ->
      max_range (config_ (node w')) = max_range (config_ (node w)) /\
      view_direction (config_ (node w')) = view_direction (config_ (node w)) /\
      view_width (config_ (node w')) = view_width (config_ (node w))).
Proof.
  intros p w r w' Hrun. split.
  - intros Habsent. revert Hrun. unfold paramCallback, get_param. rewrite Habsent.
    run. params p; cbn; intros Hrun; try discriminate Hrun;
      injection Hrun as _ <-; reflexivity.
  - intros Hpresent. revert Hrun. unfold paramCallback, get_param.
    destruct (find_name p "min_range") as [it0|] eqn:Hmin; [clear Hpresent|congruence].
    run. destruct (get_value_double it0) as [v0|] eqn:Hv0; cbn beta iota;
      [|intros Hrun; discriminate Hrun].
    cbn [node trace queries].
    destruct (find_name p "num_points_threshold") as [it1|]; cbn beta iota;
      [destruct (get_value_int it1); cbn beta iota; [|intros Hrun; discriminate Hrun]|];
      (destruct (find_name p "scan_phase") as [it2|]; cbn beta iota;
       [destruct (get_value_double it2); cbn beta iota; [|intros Hrun; discriminate Hrun]|]);
      (destruct (find_name p "invalid_intensity") as [it3|]; cbn beta iota;
       [destruct (as_double_array it3) as [ds|]; cbn beta iota;
        [|intros Hrun; discriminate Hrun]|]);
      cbn [node trace queries].
    all: match goal with
         | |- context [copy_invalid_intensity 0 ?ds ?w1] =>
             destruct (copy_invalid_intensity 0 ds w1) as [? w2|? w2] eqn:Hcopy;
             cbn beta iota; intros Hrun; [|discriminate Hrun];
             injection Hrun as _ <-;
             rewrite (copy_invalid_intensity_config _ _ _ Hcopy); cbn;
             repeat split; reflexivity
         end.
Qed.

End Reconfiguration.

(* ===================================================================== *)
(** ** The properties on concrete inputs *)
(* ===================================================================== *)

(** The code's phase for the default configuration and for 180 degrees. *)
Example phase_of_default : phase_of config0 = Some 0.
Proof. reflexivity. Qed.

Example phase_of_half_turn : phase_of (config_ node_phase180) = Some 18000.
Proof. reflexivity. Qed.

(** C1 at a batch of one point at azimuth 100 with phase 0: the point goes
    to the overflow buffer and the call stops on the read of the emptied
    scan. *)
Lemma segment_exhausted_witness :
  exists w',
    @segment bench (batch short_batch) (start node0) = Aborts EmptyBack w' /\
    points (_overflow_buffer (node w')) = short_batch.
Proof.
  apply (@segment_exhausted_reads_emptied_buffer bench (batch short_batch) (start node0) 0).
  - reflexivity.
  - lia.
  - discriminate.
  - repeat constructor; cbn; unfold spec_diff; cbn; lia.
Defined.

(** C2 at a scan message without packets, an empty overflow buffer and one
    subscriber on the plain output. *)
Lemma empty_scan_witness :
  exists w',
    @processScan bench (only velodyne_points_pub_) no_packets (start node0)
    = Aborts EmptyFront w'.
Proof.
  apply (@empty_scan_reads_first_point bench (only velodyne_points_pub_) no_packets
           (start node0) 0); reflexivity.
Defined.

(** C3 at an update that names [min_range] and [max_range], on a node with
    thresholds 5 and 7: the call returns, [max_range] is still 130 and the
    thresholds are 0 and 0. *)
Lemma paramCallback_witness :
  exists r w',
    @paramCallback bench update_ranges (start node_intensity) = Returns r w' /\
    invalid_intensity_array_ (node w') = [0%float; 0%float] /\
    max_range (config_ (node w')) = 130%float /\
    min_range (config_ (node w')) = 1%float.
Proof.
  eexists _, _. split; [vm_compute; reflexivity|].
  destruct (@paramCallback_resets_and_short_circuits bench update_ranges
              (start node_intensity) _ _ eq_refl) as [Hreset Hshort].
  split; [exact (Hreset eq_refl)|].
  split; [|reflexivity].
  apply Hshort. discriminate.
Defined.

(** C4 at the first scenario of the specification: phase 0, an empty
    overflow buffer and the azimuths 100, 200, 35900, 35950.  The scan from
    the tail stops at once on 35950: the four points are the closed scan
    and the overflow buffer is empty. *)
Lemma segment_scenario6_witness :
  phase_of (config_ node0) = Some 0 /\
  spec_phase (scan_phase (config_ node0)) = Some 0 /\
  exists w',
    @segment bench (batch scenario6) (start node0) = Returns scenario6 w' /\
    points (_overflow_buffer (node w')) = [].
Proof.
  apply (@segment_implements_backward_scan bench (batch scenario6) (start node0) 0).
  - reflexivity.
  - lia.
  - repeat constructor; cbn; lia.
  - right. do 3 apply List.Exists_cons_tl. apply List.Exists_cons_hd.
    unfold spec_diff. cbn. lia.
Defined.

(** C5 at two batches in a row with phase 0: the closed scans hold five
    points, the overflow buffer one, and together they are the six points
    decoded. *)
Lemma segmenter_conserves_witness :
  exists scans w',
    @segment_all bench [batch batch_a; batch batch_b] (start node0) = Returns scans w' /\
    scans = [[pt 35000 1 0.5]; [pt 100 1 0.75; pt 200 1 1; pt 300 1 1.25; pt 35500 1 1.5]] /\
    points (_overflow_buffer (node w')) = [pt 50 1 1.75] /\
    Permutation (batch_a ++ batch_b) (List.concat scans ++ points (_overflow_buffer (node w'))).
Proof.
  eexists _, _. split; [vm_compute; reflexivity|].
  split; [reflexivity|]. split; [reflexivity|].
  exact (@segmenter_conserves_points bench [batch batch_a; batch batch_b] (start node0)
           _ _ eq_refl).
Defined.

(** C6 at a cycle whose only subscriber is on the near-invalid output: the
    ring sort runs, the range-valid extraction does not, and the combined
    cloud stays new. *)
Lemma demand_gating_witness :
  (forall c mn mx,
     ~ List.In (call_extractValidPoints c mn mx)
         (calls_of (@processScan bench (only velodyne_points_invalid_near_pub_)
                      (batch scenario6)) (start node0)))
  /\ (exists c n,
        List.In (call_sortZeroIndex c n)
          (calls_of (@processScan bench (only velodyne_points_invalid_near_pub_)
                       (batch scenario6)) (start node0)))
  /\ (forall L w',
        @processScan bench (only velodyne_points_invalid_near_pub_)
          (batch scenario6) (start node0) = Returns L w' ->
        combined_points_xyziradt L = new_PointCloud).
Proof.
  pose proof (@demand_gates_every_computation bench
                (only velodyne_points_invalid_near_pub_) (batch scenario6) (start node0))
    as (Hvalid & _ & Hcombined & _).
  split; [|split].
  - apply Hvalid; intros k; reflexivity.
  - eexists _, _. vm_compute. right. left. reflexivity.
  - apply Hcombined. intros k. reflexivity.
Defined.

(** C10 at a cycle without any subscriber and with a point waiting in the
    overflow buffer: the cycle returns, the scan is the new cloud, and the
    point is still the content of the buffer. *)
Lemma idle_cycle_witness :
  exists L w',
    @processScan bench nobody (batch scenario6) (start node_carry) = Returns L w' /\
    node w' = node_carry /\
    _overflow_buffer (node w') = _overflow_buffer node_carry /\
    scan_points_xyziradt L = new_PointCloud /\
    (forall pk, ~ List.In (call_unpack_all pk)
                  (calls_of (@processScan bench nobody (batch scenario6)) (start node_carry))).
Proof.
  exact (@idle_cycle_discards_batch bench nobody (batch scenario6) (start node_carry) eq_refl).
Defined.

(** C7 at a cycle with a subscriber on every output and a batch of two
    points in range and two at distance zero: the combined cloud holds the
    two points in range followed by the two at distance zero, and its
    width 4 is the sum of the widths 2 and 2. *)
Lemma combined_view_witness :
  exists L w',
    @processScan bench everyone (batch mixed) (start node0) = Returns L w' /\
    valid_points_xyziradt L = mixed_valid /\
    invalid_near_points_filtered_xyziradt L = mixed_near /\
    List.map azimuth (points (combined_points_xyziradt L)) = [100; 35900; 200; 35950] /\
    points (combined_points_xyziradt L) = points mixed_valid ++ points mixed_near /\
    height (combined_points_xyziradt L) = 1 /\
    header (combined_points_xyziradt L) = header mixed_valid /\
    width (combined_points_xyziradt L) = width mixed_valid + width mixed_near.
Proof.
  assert (Hin : List.In
                  (call_publish velodyne_points_combined_ex_pub_
                     (@PointCloud2_XYZIRADT bench (combine mixed_valid mixed_near)))
                  (calls_of (@processScan bench everyone (batch mixed)) (start node0))).
  { vm_compute. do 9 right. left. reflexivity. }
  destruct (@combined_view_is_concatenation bench everyone (batch mixed) (start node0) _ Hin)
    as (L & w' & Hrun & Hm & Hpts & Hh & Hhd & _ & Hw & _).
  exists L, w'. split; [exact Hrun|].
  assert (HL : L = @views_locals bench mixed_scan node0
                     (mkAnswers true true true true true true true)).
  { vm_compute in Hrun. injection Hrun as <- _. vm_compute. reflexivity. }
  assert (Hv : valid_points_xyziradt L = mixed_valid) by (rewrite HL; reflexivity).
  assert (Hn : invalid_near_points_filtered_xyziradt L = mixed_near)
    by (rewrite HL; reflexivity).
  split; [exact Hv|]. split; [exact Hn|].
  split; [rewrite HL; reflexivity|].
  rewrite <- Hv, <- Hn.
  split; [exact Hpts|]. split; [exact Hh|]. split; [exact Hhd|].
  apply Hw; rewrite ?Hv, ?Hn; vm_compute; reflexivity.
Defined.


(** The second batch of the second scenario of the specification, phase
    180 degrees, azimuths 17000, 17500, 17900, on an empty overflow
    buffer: the last point is 35900 hundredths of a degree past the phase,
    which is not below 18000, so the scan from the tail stops at once and
    the batch is closed whole. *)
Example scenario7_second_batch :
  spec_diff 18000 17900 = 35900 /\
  exists w',
    @segment bench (batch scenario7b) (start node_phase180) = Returns scenario7b w' /\
    points (_overflow_buffer (node w')) = [].
Proof.
  split; [reflexivity|]. eexists. split; vm_compute; reflexivity.
Qed.

(* ===================================================================== *)
(** ** More on the reconfiguration handler *)
(* ===================================================================== *)

Section ReconfigurationRuns.
Context {ext : Collaborators}.
Implicit Types (w : World) (p : list rclcpp_Parameter).

Ltac run :=
  unfold defined, when, orelse, subscribed, publish;
  unfold bind, ret, abort, gets, modify, emit, get_subscription_count;
  cbn beta iota.

Lemma at_put_firstn_skipn {A} (v : list A) i a :
  (i < List.length v)%nat ->
  at_put v i a = Some (List.firstn i v ++ a :: List.skipn (S i) v).
Proof.
  revert i. induction v as [|b v IH]; intros [|i] Hi; cbn in *; try lia.
  - reflexivity.
  - rewrite IH by lia. reflexivity.
Qed.

Lemma same_but_array_refl w : same_but_array w w.
Proof. unfold same_but_array. repeat split. Qed.

(** The loop of lines 191-193 from index [i]: it overwrites the entries
    from [i] on with the converted values while they fit, and stops at the
    end of the array with the values that fitted written. *)
Lemma copy_invalid_intensity_run src :
  forall i w,
  (i <= List.length (invalid_intensity_array_ (node w)))%nat ->
  exists w',
    same_but_array w w' /\
    if (i + List.length src <=? List.length (invalid_intensity_array_ (node w)))%nat
    then copy_invalid_intensity i src w = Returns tt w' /\
         invalid_intensity_array_ (node w')
         = List.firstn i (invalid_intensity_array_ (node w))
           ++ List.map Cxx.static_cast_float src
           ++ List.skipn (i + List.length src) (invalid_intensity_array_ (node w))
    else copy_invalid_intensity i src w = Aborts OutOfRange w' /\
         invalid_intensity_array_ (node w')
         = List.firstn i (invalid_intensity_array_ (node w))
           ++ List.map Cxx.static_cast_float
                (List.firstn (List.length (invalid_intensity_array_ (node w)) - i) src).
Proof.
  induction src as [|d src IH]; intros i w Hi.
  - exists w. split; [apply same_but_array_refl|].
    cbn [List.length]. rewrite Nat.add_0_r.
    destruct (Nat.leb_spec i (List.length (invalid_intensity_array_ (node w)))); [|lia].
    split; [reflexivity|]. cbn [List.map List.app]. now rewrite List.firstn_skipn.
  - cbn [copy_invalid_intensity List.length]. run.
    set (arr := invalid_intensity_array_ (node w)) in *.
    destruct (Nat.lt_ge_cases i (List.length arr)) as [Hlt|Hge].
    + rewrite (at_put_firstn_skipn arr (Cxx.static_cast_float d) Hlt). cbn beta iota.
      set (arr1 := List.firstn i arr ++ Cxx.static_cast_float d :: List.skipn (S i) arr).
      set (w1 := {| node := set_invalid_intensity_array arr1 (node w);
                    trace := trace w; queries := queries w |}).
      assert (Hlen1 : List.length arr1 = List.length arr).
      { unfold arr1. rewrite List.length_app, List.firstn_length_le by lia.
        cbn [List.length]. rewrite List.length_skipn. lia. }
      assert (Hfirst : List.firstn (S i) arr1 = List.firstn i arr ++ [Cxx.static_cast_float d]).
      { unfold arr1.
        rewrite List.firstn_app, List.firstn_length_le by lia.
        rewrite List.firstn_firstn. replace (Nat.min (S i) i) with i by lia.
        replace (S i - i)%nat with 1%nat by lia. reflexivity. }
      assert (Hskip : forall k, List.skipn (S i + k) arr1 = List.skipn (S i + k) arr).
      { intros k. unfold arr1.
        rewrite List.skipn_app, List.firstn_length_le by lia.
        rewrite (List.skipn_all2 (List.firstn i arr))
          by (rewrite List.firstn_length_le by lia; lia).
        replace (S i + k - i)%nat with (S k) by lia.
        rewrite List.skipn_cons. cbn [List.app].
        rewrite List.skipn_skipn. f_equal. lia. }
      destruct (IH (S i) w1) as (w' & Hsame & Hrun).
      { cbn. rewrite Hlen1. lia. }
      exists w'. split.
      { destruct Hsame as (H1 & H2 & H3 & H4 & H5 & H6 & H7 & H8).
        unfold same_but_array. cbn in *. repeat split; assumption. }
      change (invalid_intensity_array_ (node w1)) with arr1 in Hrun.
      rewrite Hlen1 in Hrun.
      replace (i + S (List.length src))%nat with (S i + List.length src)%nat by lia.
      destruct (S i + List.length src <=? List.length arr)%nat.
      * destruct Hrun as [Hrun Harr]. split; [exact Hrun|].
        rewrite Harr, Hfirst, Hskip. cbn [List.map]. rewrite <- List.app_assoc. reflexivity.
      * destruct Hrun as [Hrun Harr]. split; [exact Hrun|].
        rewrite Harr, Hfirst.
        replace (List.length arr - i)%nat with (S (List.length arr - S i)) by lia.
        cbn [List.firstn List.map]. rewrite <- List.app_assoc. reflexivity.
    + rewrite at_put_None by exact Hge. cbn beta iota.
      exists w. split; [apply same_but_array_refl|].
      destruct (Nat.leb_spec (i + S (List.length src)) (List.length arr)); [lia|].
      split; [reflexivity|].
      replace (List.length arr - i)%nat with 0%nat by lia.
      cbn [List.firstn List.map]. rewrite List.app_nil_r.
      fold arr. rewrite List.firstn_all2 by lia. reflexivity.
Qed.

Lemma skipn_repeat {A} (a : A) n k :
  List.skipn k (List.repeat a n) = List.repeat a (n - k).
Proof.
  revert k. induction n as [|n IH]; intros [|k]; cbn; try reflexivity. apply IH.
Qed.

Lemma firstn_repeat_all {A} (l : list A) n :
  (n < List.length l)%nat -> List.length (List.firstn n l) = n.
Proof. intros H. apply List.firstn_length_le. lia. Qed.

Ltac params p :=
  repeat match goal with
         | |- context [find_name p ?name] =>
             let it := fresh "it" in
             destruct (find_name p name) as [it|] eqn:?; cbn beta iota
         | |- context [get_value_double ?it] =>
             destruct (get_value_double it) eqn:?; cbn beta iota
         | |- context [get_value_int ?it] =>
             destruct (get_value_int it) eqn:?; cbn beta iota
         | |- context [as_double_array ?it] =>
             destruct (as_double_array it) eqn:?; cbn beta iota
         end.

Ltac callback p :=
  unfold paramCallback, get_param, readable, typed_as, intensity_of, range_parameter;
  run; cbn [node trace queries]; params p; cbn [node trace queries].

(* what the loop of lines 191-193 leaves, in a leaf of [callback] *)
Ltac copy_loop w3 Hsame Hfit Hcopy Harr :=
  match goal with
  | |- context [copy_invalid_intensity 0 ?ds ?w2] =>
      destruct (@copy_invalid_intensity_run ds 0%nat w2 (Nat.le_0_l _))
        as (w3 & Hsame & Hcopy);
      cbn [node invalid_intensity_array_ set_invalid_intensity_array] in Hcopy;
      rewrite List.repeat_length in Hcopy;
      cbn [Nat.add List.firstn List.app] in Hcopy;
      rewrite ?skipn_repeat in Hcopy;
      match type of Hcopy with
      | if ?b then _ else _ => destruct b eqn:Hfit
      end;
      destruct Hcopy as [Hcopy Harr]; rewrite Hcopy; cbn beta iota
  end.

(** X1.  In a call of the handler that returns, exactly one of the four
    range and view fields can change: the first of [min_range],
    [max_range], [view_direction], [view_width] that the update names takes
    the value the update gives it, and the other three keep their prior
    values, named by the update or not. *)
Theorem paramCallback_first_range_parameter_wins :
  forall p w r w',
  paramCallback p w = Returns r w' ->
  match find_name p "min_range" with
  | Some it =>
      get_value_double it = Some (min_range (config_ (node w'))) /\
      max_range (config_ (node w')) = max_range (config_ (node w)) /\
      view_direction (config_ (node w')) = view_direction (config_ (node w)) /\
      view_width (config_ (node w')) = view_width (config_ (node w))
  | None =>
      min_range (config_ (node w')) = min_range (config_ (node w)) /\
      match find_name p "max_range" with
      | Some it =>
          get_value_double it = Some (max_range (config_ (node w'))) /\
          view_direction (config_ (node w')) = view_direction (config_ (node w)) /\
          view_width (config_ (node w')) = view_width (config_ (node w))
      | None =>
          max_range (config_ (node w')) = max_range (config_ (node w)) /\
          match find_name p "view_direction" with
          | Some it =>
              get_value_double it = Some (view_direction (config_ (node w'))) /\
              view_width (config_ (node w')) = view_width (config_ (node w))
          | None =>
              view_direction (config_ (node w')) = view_direction (config_ (node w)) /\
              match find_name p "view_width" with
              | Some it => get_value_double it = Some (view_width (config_ (node w')))
              | None => view_width (config_ (node w')) = view_width (config_ (node w))
              end
          end
      end
  end.
Proof.
  intros p w r w'. callback p; try (intros Hrun; discriminate Hrun).
  all: copy_loop w3 Hsame Hfit Hcopy Harr; intros Hrun; try discriminate Hrun;
    injection Hrun as _ <-; destruct Hsame as (-> & _); cbn;
    repeat split; congruence.
Qed.

(** X2.  In a call of the handler that returns, [num_points_threshold_]
    and [scan_phase] each take the value the update gives (the integer
    stored as an [int]) when the update names them, and keep their prior
    value when it does not. *)
Theorem paramCallback_assigns_threshold_and_phase :
  forall p w r w',
  paramCallback p w = Returns r w' ->
  match find_name p "num_points_threshold" with
  | Some it => get_value_int it = Some (num_points_threshold_ (node w'))
  | None => num_points_threshold_ (node w') = num_points_threshold_ (node w)
  end /\
  match find_name p "scan_phase" with
  | Some it => get_value_double it = Some (scan_phase (config_ (node w')))
  | None => scan_phase (config_ (node w')) = scan_phase (config_ (node w))
  end.
Proof.
  intros p w r w'. callback p; try (intros Hrun; discriminate Hrun).
  all: copy_loop w3 Hsame Hfit Hcopy Harr; intros Hrun; try discriminate Hrun;
    injection Hrun as _ <-; destruct Hsame as (-> & -> & _); cbn;
    repeat split; congruence.
Qed.

(** X3.  In a call of the handler that returns, the thresholds of the
    update are no more than the lasers, and the per-ring array has one
    entry per laser: the thresholds of the update converted to [float], in
    order, followed by zeros (all zeros when the update has no
    [invalid_intensity]). *)
Theorem paramCallback_zero_pads_thresholds :
  forall p w r w',
  paramCallback p w = Returns r w' ->
  (List.length (intensity_of p) <= RawData.getNumLasers (data_ (node w)))%nat /\
  invalid_intensity_array_ (node w')
  = List.map Cxx.static_cast_float (intensity_of p)
    ++ List.repeat 0%float
         (RawData.getNumLasers (data_ (node w)) - List.length (intensity_of p)).
Proof.
  intros p w r w'. callback p; try (intros Hrun; discriminate Hrun).
  all: copy_loop w3 Hsame Hfit Hcopy Harr; intros Hrun; try discriminate Hrun;
    injection Hrun as _ <-; apply Nat.leb_le in Hfit;
    cbn in Hfit, Harr |- *; (split; [exact Hfit | exact Harr]).
Qed.

(** X4.  When every parameter the handler reads has the type it is read
    as and the update carries more thresholds than there are lasers, the
    call throws [std::out_of_range] at the first threshold that does not
    fit.  Nothing is rolled back: the per-ring array then holds the
    thresholds that fitted, and a [scan_phase] named by the update is
    already in the configuration. *)
Theorem paramCallback_too_many_thresholds :
  forall p w,
  readable p ->
  (RawData.getNumLasers (data_ (node w)) < List.length (intensity_of p))%nat ->
  exists w',
    paramCallback p w = Aborts OutOfRange w' /\
    invalid_intensity_array_ (node w')
    = List.map Cxx.static_cast_float
        (List.firstn (RawData.getNumLasers (data_ (node w))) (intensity_of p)) /\
    match find_name p "scan_phase" with
    | Some it => get_value_double it = Some (scan_phase (config_ (node w')))
    | None => scan_phase (config_ (node w')) = scan_phase (config_ (node w))
    end.
Proof.
  intros p w. callback p; intros (H1 & H2 & H3 & H4) Hlong;
    try congruence; try (cbn in Hlong; lia).
  all: copy_loop w3 Hsame Hfit Hcopy Harr; unfold RawData.getNumLasers in *;
    [apply Nat.leb_le in Hfit; cbn in Hfit, Hlong; lia|];
    exists w3; destruct Hsame as (-> & _); cbn in Harr |- *;
    rewrite Nat.sub_0_r in Harr; repeat split; congruence.
Qed.

(** X5.  The handler returns exactly when every parameter it reads has
    the type it is read as and the thresholds of the update are no more
    than the lasers; and whenever it returns it reports success.  It never
    rejects an update by its values. *)
Theorem paramCallback_returns_iff :
  forall p w,
  ((exists r w', paramCallback p w = Returns r w') <->
   readable p /\
   (List.length (intensity_of p) <= RawData.getNumLasers (data_ (node w)))%nat)
  /\ (forall r w', paramCallback p w = Returns r w' ->
                   r = {| successful := true; reason := "success" |}).
Proof.
  intros p w. callback p.
  all: try copy_loop w3 Hsame Hfit Hcopy Harr.
  all: try (apply Nat.leb_le in Hfit); try (apply Nat.leb_gt in Hfit);
    unfold RawData.getNumLasers in *; try (cbn in Hfit); cbn.
  all: split;
    [split;
     [intros (r & w' & Hrun); try discriminate Hrun;
      repeat split; try discriminate; try exact I; try lia
     |intros ((H1 & H2 & H3 & H4) & Hlen); try congruence; try lia; eauto]
    |intros r w' Hrun; try discriminate Hrun; injection Hrun as <- _; reflexivity].
Qed.

(** However a call of the handler ends, it leaves the overflow buffer, the
    dump flag and counter, the number of lasers and the query count as
    they were, and either makes no call and leaves the decoder and the
    four range and view fields as they were, or makes the one call
    [setParameters] with the four fields as they are after the call. *)
Lemma paramCallback_footprint p w :
  let w' := world_of (paramCallback p w) in
  _overflow_buffer (node w') = _overflow_buffer (node w) /\
  save_test_vector_ (node w') = save_test_vector_ (node w) /\
  convert_frame_id_ (node w') = convert_frame_id_ (node w) /\
  RawData.num_lasers (data_ (node w')) = RawData.num_lasers (data_ (node w)) /\
  queries w' = queries w /\
  ((trace w' = trace w /\ data_ (node w') = data_ (node w) /\
    min_range (config_ (node w')) = min_range (config_ (node w)) /\
    max_range (config_ (node w')) = max_range (config_ (node w)) /\
    view_direction (config_ (node w')) = view_direction (config_ (node w)) /\
    view_width (config_ (node w')) = view_width (config_ (node w)))
   \/
   (trace w' = trace w ++
      [call_setParameters (min_range (config_ (node w'))) (max_range (config_ (node w')))
         (view_direction (config_ (node w'))) (view_width (config_ (node w')))] /\
    data_ (node w')
    = RawData.setParameters (data_ (node w))
        (min_range (config_ (node w'))) (max_range (config_ (node w')))
        (view_direction (config_ (node w'))) (view_width (config_ (node w'))))).
Proof.
  cbn zeta. remember (paramCallback p w) as o eqn:Hrun. revert Hrun. callback p.
  all: try copy_loop w3 Hsame Hfit Hcopy Harr.
  all: intros ->; cbn [world_of].
  all: try (destruct Hsame as (Hc & _ & Hd & Ho & Hs & Hf & Ht & Hq);
            rewrite Hc, Hd, Ho, Hs, Hf, Ht, Hq).
  all: cbn; repeat (split; [reflexivity|]);
    first [left; repeat split; reflexivity | right; repeat split; reflexivity].
Qed.

(** X6.  The handler keeps the decoder in step with the configuration: if
    the decoder holds the range and view limits of the configuration
    before a call, it holds them after the call, however the call ends. *)
Theorem paramCallback_keeps_decoder_in_step :
  forall p w,
  mirrors (node w) -> mirrors (node (world_of (paramCallback p w))).
Proof.
  intros p w (H1 & H2 & H3 & H4).
  destruct (paramCallback_footprint p w)
    as (_ & _ & _ & _ & _ & [(_ & Hd & E1 & E2 & E3 & E4) | (_ & Hd)]).
  - unfold mirrors. rewrite Hd, E1, E2, E3, E4. auto.
  - unfold mirrors. rewrite Hd. cbn. auto.
Qed.

(** X7.  The handler publishes nothing and works on the configuration
    only: however a call ends, the overflow buffer, the dump flag and
    counter and the number of lasers are as before, and the trace has
    grown by nothing or by one [setParameters] that carries the range and
    view limits of the configuration as the call leaves it. *)
Theorem paramCallback_touches_configuration_only :
  forall p w,
  _overflow_buffer (node (world_of (paramCallback p w))) = _overflow_buffer (node w) /\
  save_test_vector_ (node (world_of (paramCallback p w))) = save_test_vector_ (node w) /\
  convert_frame_id_ (node (world_of (paramCallback p w))) = convert_frame_id_ (node w) /\
  RawData.getNumLasers (data_ (node (world_of (paramCallback p w))))
  = RawData.getNumLasers (data_ (node w)) /\
  (trace (world_of (paramCallback p w)) = trace w \/
   trace (world_of (paramCallback p w))
   = trace w ++
     [call_setParameters
        (min_range (config_ (node (world_of (paramCallback p w)))))
        (max_range (config_ (node (world_of (paramCallback p w)))))
        (view_direction (config_ (node (world_of (paramCallback p w)))))
        (view_width (config_ (node (world_of (paramCallback p w)))))]).
Proof.
  intros p w.
  destruct (paramCallback_footprint p w) as (Ho & Hs & Hf & Hn & _ & Hcalls).
  repeat (split; [assumption|]).
  destruct Hcalls as [(Ht & _) | (Ht & _)]; [left | right]; exact Ht.
Qed.

Lemma find_name_drop p1 x p2 name :
  String.eqb (get_name x) name = false \/
  (exists y, List.In y p1 /\ get_name y = get_name x) ->
  find_name (p1 ++ x :: p2) name = find_name (p1 ++ p2) name.
Proof.
  unfold find_name. induction p1 as [|z p1 IH]; intros Hdrop; cbn.
  - destruct Hdrop as [Hx | (y & [] & _)]. now rewrite Hx.
  - destruct (String.eqb (get_name z) name) eqn:Hz; [reflexivity|].
    apply IH. destruct Hdrop as [Hx | (y & [<-|Hin] & Hy)]; [now left | | right; eauto].
    left. rewrite <- Hy. exact Hz.
Qed.

(** The handler sees an update through the seven names it looks up. *)
Lemma paramCallback_ext p q w :
  (forall name, List.In name known_names -> find_name p name = find_name q name) ->
  paramCallback p w = paramCallback q w.
Proof.
  intros Hsame. unfold paramCallback, get_param.
  rewrite !(Hsame _) by (cbn; tauto). reflexivity.
Qed.

(** X8.  The handler reads the first parameter of each name and no name
    but its seven: a parameter whose name it does not look for, and a
    parameter that comes after another of the same name, can be taken out
    of the update without any change to what the call does. *)
Theorem paramCallback_ignores_unknown_and_repeated :
  forall p1 x p2 w,
  ~ List.In (get_name x) known_names \/
  (exists y, List.In y p1 /\ get_name y = get_name x) ->
  paramCallback (p1 ++ x :: p2) w = paramCallback (p1 ++ p2) w.
Proof.
  intros p1 x p2 w Hdrop. apply paramCallback_ext. intros name Hname.
  apply find_name_drop. destruct Hdrop as [Hunknown | Hrepeated]; [left | now right].
  destruct (String.eqb (get_name x) name) eqn:Hx; [|reflexivity].
  apply String.eqb_eq in Hx. subst name. contradiction.
Qed.

(** A call of the handler that returns leaves one threshold per laser. *)
Lemma paramCallback_array_length p w r w' :
  paramCallback p w = Returns r w' ->
  List.length (invalid_intensity_array_ (node w'))
  = RawData.getNumLasers (data_ (node w)).
Proof.
  revert r w'. intros r w'. callback p; try (intros Hrun; discriminate Hrun).
  all: copy_loop w3 Hsame Hfit Hcopy Harr; intros Hrun; try discriminate Hrun;
    injection Hrun as _ <-; apply Nat.leb_le in Hfit;
    unfold RawData.getNumLasers in *; cbn in Hfit |- *;
    rewrite Harr, List.length_app, List.length_map, List.repeat_length;
    cbn in Hfit |- *; lia.
Qed.

End ReconfigurationRuns.

(* ===================================================================== *)
(** ** More on the segmenter *)
(* ===================================================================== *)

Section SegmenterOrder.
Context {ext : Collaborators}.
Implicit Types (w : World) (scanMsg : VelodyneScan).


(** A call of the segmenter that returns cuts the points it works on in
    two: the closed scan, then the overflow buffer read backwards. *)
Lemma segment_splits scanMsg w closed w' :
  segment scanMsg w = Returns closed w' ->
  closed ++ List.rev (points (_overflow_buffer (node w'))) = raw_points w scanMsg
  /\ data_ (node w') = data_ (node w).
Proof.
  intros Hrun.
  destruct (phase_of (config_ (node w))) as [phase|] eqn:Hphase.
  2:{ rewrite (segment_no_phase scanMsg w Hphase) in Hrun. discriminate. }
  destruct (segment_cases scanMsg w Hphase)
    as [[Hnil Hseg] | [(pts & p & suf & Hsplit & _ & _ & Hseg) | (_ & _ & Hseg)]];
    rewrite Hseg in Hrun; try discriminate;
    injection Hrun as <- <-; rewrite after_segment_overflow, after_segment_data;
    (split; [|reflexivity]).
  - now rewrite Hnil.
  - now rewrite List.rev_involutive, Hsplit.
Qed.

(** X9.  The segmenter keeps the points in the order they were decoded,
    also across batches: over any sequence of calls that return, the
    closed scans one after the other, followed by the overflow buffer read
    backwards, are the initial overflow buffer read backwards followed by
    the decoded batches one after the other. *)
Theorem segmenter_keeps_decode_order :
  forall (batches : list VelodyneScan) w scans w',
  segment_all batches w = Returns scans w' ->
  List.concat scans ++ List.rev (points (_overflow_buffer (node w')))
  = List.rev (points (_overflow_buffer (node w)))
    ++ List.concat (List.map (fun m => unpack_all (data_ (node w)) (packets m)) batches).
Proof.
  induction batches as [|scanMsg rest IH]; intros w scans w' Hrun.
  - injection Hrun as <- <-. cbn. now rewrite List.app_nil_r.
  - cbn [segment_all] in Hrun. unfold bind in Hrun.
    destruct (segment scanMsg w) as [closed w1|f w1] eqn:Hseg; [|discriminate].
    destruct (segment_all rest w1) as [more w2|f w2] eqn:Hrest; [|discriminate].
    injection Hrun as <- <-.
    destruct (segment_splits _ _ Hseg) as [Hone Hdata].
    specialize (IH _ _ _ Hrest). rewrite Hdata in IH.
    cbn [List.map List.concat].
    rewrite <- List.app_assoc, IH, List.app_assoc, Hone.
    unfold raw_points. now rewrite <- List.app_assoc.
Qed.


(** X10.  After a call of the segmenter that returns, the cut is at the
    phase: the last point of the closed scan, when it has one, is half a
    turn or more past the phase; every point in the overflow buffer is
    less than half a turn past the phase; and the buffer has height 1 and
    its number of points (in 32 bits) as width. *)
Theorem segment_cuts_at_the_phase :
  forall scanMsg w phase closed w',
  phase_of (config_ (node w)) = Some phase ->
  segment scanMsg w = Returns closed w' ->
  (forall p, back closed = Some p -> 18000 <= phase_diff_of phase (azimuth_of p)) /\
  List.Forall (fun q => phase_diff_of phase (azimuth_of q) < 18000)
              (points (_overflow_buffer (node w'))) /\
  width (_overflow_buffer (node w'))
  = Cxx.to_uint32 (size (points (_overflow_buffer (node w')))) /\
  height (_overflow_buffer (node w')) = 1.
Proof.
  intros scanMsg w phase closed w' Hphase Hrun.
  destruct (segment_cases scanMsg w Hphase)
    as [[Hnil Hseg] | [(pts & p & suf & Hsplit & Hp & Hsuf & Hseg) | (_ & _ & Hseg)]];
    rewrite Hseg in Hrun; try discriminate; injection Hrun as <- <-.
  - cbn. repeat split; auto. discriminate.
  - cbn. split; [|split; [|split]].
    + intros q Hq. rewrite back_push_back in Hq. injection Hq as <-. exact Hp.
    + apply List.Forall_rev. exact Hsuf.
    + reflexivity.
    + reflexivity.
Qed.


End SegmenterOrder.

(* ===================================================================== *)
(** ** More on the processing cycle *)
(* ===================================================================== *)

Section CycleOutcomes.
Context {ext : Collaborators}.
Implicit Types (w : World) (scanMsg : VelodyneScan) (sink : Sink).

(** However the segmenter ends, it leaves the world that [after_segment]
    describes, for some content and width of the overflow buffer. *)
Lemma segment_world scanMsg w :
  exists carry wd, world_of (segment scanMsg w) = after_segment w scanMsg carry wd.
Proof.
  destruct (phase_of (config_ (node w))) as [phase|] eqn:Hphase.
  - destruct (segment_cases scanMsg w Hphase)
      as [[_ Hseg] | [(pts & p & suf & _ & _ & _ & Hseg) | (_ & _ & Hseg)]];
      rewrite Hseg; eexists _, _; reflexivity.
  - rewrite (segment_no_phase scanMsg w Hphase). eexists _, _; reflexivity.
Qed.

(** The node that a cycle leaves, however it ends: the node it started
    with when no cloud output has a subscriber at lines 214-218, and the
    node as the segmenter leaves it otherwise. *)
Lemma processScan_node sink scanMsg w :
  if cloud_wanted sink (queries w)
  then exists carry wd,
         node (world_of (processScan sink scanMsg w))
         = node (after_segment w scanMsg carry wd)
  else node (world_of (processScan sink scanMsg w)) = node w.
Proof.
  destruct (cloud_wanted sink (queries w)) eqn:Hwanted.
  - destruct (processScan_busy sink scanMsg w Hwanted) as (q1 & Hrun).
    destruct (segment_world scanMsg (asked w q1)) as (carry & wd & Hworld).
    exists carry, wd.
    change (node (after_segment w scanMsg carry wd))
      with (node (after_segment (asked w q1) scanMsg carry wd)).
    rewrite <- Hworld.
    destruct (segment scanMsg (asked w q1)) as [pts w1|f w1]; cbn [world_of].
    + destruct (front pts) as [p|]; [|now rewrite Hrun].
      destruct (toChronoNanoSeconds (time_stamp p)) as [ns|]; [|now rewrite Hrun].
      destruct Hrun as (a & q' & -> & _). reflexivity.
    + now rewrite Hrun.
  - destruct (processScan_idle sink scanMsg w Hwanted) as (a & q' & -> & _). reflexivity.
Qed.



(** X13.  A cycle leaves the configuration, the decoder, the intensity
    thresholds, the point-count threshold and the dump flag as they were,
    and the header of the overflow buffer too.  While the dump counter is
    below the largest [int], it goes up by one in a cycle that dumps (a
    cloud output has a subscriber at lines 214-218 and the node saves test
    vectors) and stays in every other. *)
Theorem processScan_leaves_configuration :
  forall sink scanMsg w,
  let n' := node (world_of (processScan sink scanMsg w)) in
  config_ n' = config_ (node w) /\
  data_ n' = data_ (node w) /\
  invalid_intensity_array_ n' = invalid_intensity_array_ (node w) /\
  num_points_threshold_ n' = num_points_threshold_ (node w) /\
  save_test_vector_ n' = save_test_vector_ (node w) /\
  header (_overflow_buffer n') = header (_overflow_buffer (node w)) /\
  (0 <= convert_frame_id_ (node w) < 2147483647 ->
   0 <= convert_frame_id_ n' <= 2147483647 /\
   convert_frame_id_ n'
   = if cloud_wanted sink (queries w) && save_test_vector_ (node w)
     then convert_frame_id_ (node w) + 1
     else convert_frame_id_ (node w)).
Proof.
  intros sink scanMsg w. cbn zeta.
  pose proof (processScan_node sink scanMsg w) as Hnode.
  destruct (cloud_wanted sink (queries w)).
  - destruct Hnode as (carry & wd & ->). unfold after_segment. cbn.
    destruct (save_test_vector_ (node w)) eqn:Hsave; cbn; rewrite ?Hsave;
      repeat split; lia.
  - rewrite Hnode. cbn. repeat split; lia.
Qed.

Lemma publications_app (l1 l2 : list call) :
  publications (l1 ++ l2) = publications l1 ++ publications l2.
Proof. apply List.flat_map_app. Qed.

Lemma publications_segment_calls w scanMsg : publications (segment_calls w scanMsg) = [].
Proof. unfold segment_calls. now destruct (save_test_vector_ (node w)). Qed.

Lemma publications_views_calls scanMsg scan n a :
  publications (views_calls scanMsg scan n a)
  = (if valid_wanted a && points_wanted a then [velodyne_points_pub_] else [])
    ++ (if valid_wanted a && ex_wanted a then [velodyne_points_ex_pub_] else [])
    ++ (if invalid_near_wanted a && near_wanted a
        then [velodyne_points_invalid_near_pub_] else [])
    ++ (if combined_wanted a then [velodyne_points_combined_ex_pub_] else [])
    ++ (if marker_wanted a then [marker_array_pub_] else []).
Proof.
  destruct a as [bv b1 b2 bi bi1 bc bm]. unfold views_calls. cbn.
  destruct bv, b1, b2, bi, bi1, bc, bm; reflexivity.
Qed.

(** The publishers a cycle publishes on, by the outcomes of its tests. *)
Lemma processScan_publications sink scanMsg w :
  exists a,
    publications (calls_of (processScan sink scanMsg) w)
    = List.filter (fun p =>
        match p with
        | velodyne_points_pub_ => valid_wanted a && points_wanted a
        | velodyne_points_ex_pub_ => valid_wanted a && ex_wanted a
        | velodyne_points_invalid_near_pub_ => invalid_near_wanted a && near_wanted a
        | velodyne_points_combined_ex_pub_ => combined_wanted a
        | marker_array_pub_ => marker_wanted a
        end)
        [velodyne_points_pub_; velodyne_points_ex_pub_; velodyne_points_invalid_near_pub_;
         velodyne_points_combined_ex_pub_; marker_array_pub_].
Proof.
  destruct (processScan_outcome sink scanMsg w)
    as [(_ & a & q' & _ & _ & Hcalls)
       | (_ & _ & q1 & [(f & w' & _ & Hcalls)
                       | (pts & p & ns & w1 & a & q' & _ & _ & _ & _ & _ & Hcalls)])];
    rewrite Hcalls.
  - exists a. rewrite publications_views_calls.
    destruct a as [bv b1 b2 bi bi1 bc bm]. cbn.
    destruct bv, b1, b2, bi, bi1, bc, bm; reflexivity.
  - exists (mkAnswers false false false false false false false).
    now rewrite publications_segment_calls.
  - exists a. rewrite publications_app, publications_segment_calls, publications_views_calls.
    destruct a as [bv b1 b2 bi bi1 bc bm]. cbn.
    destruct bv, b1, b2, bi, bi1, bc, bm; reflexivity.
Qed.

(** X14.  A cycle publishes at most once on each output, and in the order
    of the text: plain, extended, near-invalid, combined, marker. *)
Theorem processScan_publishes_once_in_order :
  forall sink scanMsg w,
  List.NoDup (publications (calls_of (processScan sink scanMsg) w)) /\
  Sorted.StronglySorted (fun p q => (rank p < rank q)%nat)
    (publications (calls_of (processScan sink scanMsg) w)).
Proof.
  intros sink scanMsg w.
  destruct (processScan_publications sink scanMsg w) as (a & ->).
  split.
  - apply List.NoDup_filter. repeat constructor; cbn; intuition discriminate.
  - destruct a as [bv b1 b2 bi bi1 bc bm].
    destruct bv, b1, b2, bi, bi1, bc, bm; cbn; repeat constructor.
Qed.

End CycleOutcomes.

Section CycleOutputs.
Context {ext : Collaborators}.
Implicit Types (w : World) (scanMsg : VelodyneScan) (sink : Sink).

Lemma after_segment_views scanMsg w carry wd scan :
  valid_of scan (node (after_segment w scanMsg carry wd)) = valid_of scan (node w) /\
  invalid_near_of scan (node (after_segment w scanMsg carry wd))
  = invalid_near_of scan (node w).
Proof.
  unfold valid_of, invalid_near_of, after_segment. cbn.
  destruct (save_test_vector_ (node w)); split; reflexivity.
Qed.

(** What lines 269-331 publish on each output, by the local clouds they
    leave. *)
Lemma views_calls_publish scanMsg scan n a p msg :
  List.In (call_publish p msg) (views_calls scanMsg scan n a) ->
  let L := views_locals scan n a in
  match p with
  | velodyne_points_pub_ =>
      msg = PointCloud2_XYZIR (convert (valid_points_xyziradt L)) /\
      valid_points_xyziradt L = valid_of scan n
  | velodyne_points_ex_pub_ =>
      msg = PointCloud2_XYZIRADT (valid_points_xyziradt L) /\
      valid_points_xyziradt L = valid_of scan n
  | velodyne_points_invalid_near_pub_ =>
      msg = PointCloud2_XYZIR (convert (invalid_near_points_filtered_xyziradt L)) /\
      invalid_near_points_filtered_xyziradt L = invalid_near_of scan n
  | velodyne_points_combined_ex_pub_ =>
      msg = PointCloud2_XYZIRADT (combined_points_xyziradt L)
  | marker_array_pub_ => msg = MarkerArray (scan_header scanMsg)
  end.
Proof.
  destruct a as [bv b1 b2 bi bi1 bc bm].
  unfold views_calls, valid_calls, invalid_near_calls, views_locals. cbn.
  destruct bv, b1, b2, bi, bi1, bc, bm; cbn; intros Hin;
    repeat (destruct Hin as [Hin|Hin]; [try discriminate Hin|]); try contradiction;
    injection Hin as <- <-; auto.
Qed.

(** X15.  What a cycle that returns publishes is what it has computed:
    the plain output carries the conversion of the range-valid cloud and
    the extended output that cloud itself, filtered from the closed scan
    with the range limits of the decoder; the near-invalid output carries
    the conversion of the near-invalid cloud, filtered from the closed
    scan with the thresholds of the node; the combined output carries the
    combined cloud; and the marker carries the header of the scan
    message. *)
Theorem processScan_publishes_its_views :
  forall sink scanMsg w L w' p msg,
  processScan sink scanMsg w = Returns L w' ->
  List.In (call_publish p msg) (calls_of (processScan sink scanMsg) w) ->
  match p with
  | velodyne_points_pub_ =>
      msg = PointCloud2_XYZIR (convert (valid_points_xyziradt L)) /\
      valid_points_xyziradt L = valid_of (scan_points_xyziradt L) (node w)
  | velodyne_points_ex_pub_ =>
      msg = PointCloud2_XYZIRADT (valid_points_xyziradt L) /\
      valid_points_xyziradt L = valid_of (scan_points_xyziradt L) (node w)
  | velodyne_points_invalid_near_pub_ =>
      msg = PointCloud2_XYZIR (convert (invalid_near_points_filtered_xyziradt L)) /\
      invalid_near_points_filtered_xyziradt L
      = invalid_near_of (scan_points_xyziradt L) (node w)
  | velodyne_points_combined_ex_pub_ =>
      msg = PointCloud2_XYZIRADT (combined_points_xyziradt L)
  | marker_array_pub_ => msg = MarkerArray (scan_header scanMsg)
  end.
Proof.
  intros sink scanMsg w L w' p msg Hrun Hin.
  destruct (processScan_outcome sink scanMsg w)
    as [(_ & a & q' & Hret & _ & Hcalls)
       | (_ & _ & q1 & [(f & w1 & Habort & _)
                       | (pts & p0 & ns & w1 & a & q' & Hseg & _ & _ & Hret & _ & Hcalls)])].
  - rewrite Hret in Hrun. injection Hrun as <- _. rewrite Hcalls in Hin.
    exact (views_calls_publish _ _ _ _ _ _ Hin).
  - rewrite Habort in Hrun. discriminate.
  - rewrite Hret in Hrun. injection Hrun as <- _. rewrite Hcalls in Hin.
    apply List.in_app_or in Hin. destruct Hin as [Hin|Hin].
    { apply segment_calls_kind in Hin. contradiction. }
    pose proof (views_calls_publish _ _ _ _ _ _ Hin) as Hmsg. cbn zeta in Hmsg.
    destruct (segment_world scanMsg (asked w q1)) as (carry & wd & Hworld).
    rewrite Hseg in Hworld. cbn [world_of] in Hworld.
    destruct (after_segment_views scanMsg (asked w q1) carry wd (stamped scanMsg pts ns))
      as [Hv Hi].
    rewrite <- Hworld in Hv, Hi. cbn [asked node] in Hv, Hi.
    cbn [scan_points_xyziradt views_locals]. rewrite <- Hv, <- Hi. exact Hmsg.
Qed.

End CycleOutputs.

Section CycleEdges.
Context {ext : Collaborators}.
Implicit Types (w : World) (scanMsg : VelodyneScan) (sink : Sink).

Ltac run :=
  unfold defined, when, orelse, subscribed, publish;
  unfold bind, ret, abort, gets, modify, emit, get_subscription_count;
  cbn beta iota.


(** X17.  The marker does not wait for a cloud.  In a cycle whose sink has
    subscribers on the marker output and on no cloud output, the packets
    are not decoded and the node is left as it was, and the one call of
    the cycle publishes the marker with the header of the scan message. *)
Theorem marker_is_published_without_clouds :
  forall sink scanMsg w,
  marker_only sink ->
  exists L w',
    processScan sink scanMsg w = Returns L w' /\
    node w' = node w /\
    calls_of (processScan sink scanMsg) w
    = [call_publish marker_array_pub_ (MarkerArray (scan_header scanMsg))].
Proof.
  intros sink scanMsg w (H1 & H2 & H3 & H4 & Hm).
  assert (Hmarker : forall k, (0 <? sink marker_array_pub_ k)%nat = true).
  { intros k. apply Nat.ltb_lt. apply Hm. }
  assert (Hrun : exists L q',
             processScan sink scanMsg w
             = Returns L (observed w
                 [call_publish marker_array_pub_ (MarkerArray (scan_header scanMsg))] q')).
  { unfold processScan, closed_scan, compose_views, valid_view, invalid_near_view,
      combined_view, model_marker. run. cbn [node trace queries].
    repeat (first [rewrite H1 | rewrite H2 | rewrite H3 | rewrite H4 | rewrite Hmarker];
            change (0 <? 0)%nat with false; cbn beta iota; cbn [node trace queries]).
    eexists _, _. reflexivity. }
  destruct Hrun as (L & q' & Hrun). eexists _, _.
  split; [exact Hrun|]. split; [reflexivity|].
  apply calls_of_observed. rewrite Hrun. reflexivity.
Qed.


(** X19.  The tests on the subscribers are made anew at every step, and a
    cycle that found no subscriber at lines 214-218 still runs the steps
    whose later tests find one.  Those steps then work on the new, empty
    cloud: the batch is not decoded, and every filter that runs is given
    the empty cloud, whatever the packets hold. *)
Theorem late_subscriber_gets_the_empty_scan :
  forall sink scanMsg w c,
  cloud_wanted sink (queries w) = false ->
  List.In c (calls_of (processScan sink scanMsg) w) ->
  match c with
  | call_unpack_all _ => False
  | call_extractValidPoints scan _ _ => scan = new_PointCloud
  | call_sortZeroIndex scan _ => scan = new_PointCloud
  | call_extractInvalidNearPointsFiltered scan _ _ _ =>
      scan = sortZeroIndex new_PointCloud (RawData.getNumLasers (data_ (node w)))
  | _ => True
  end.
Proof.
  intros sink scanMsg w c Hidle Hin.
  destruct (processScan_outcome sink scanMsg w)
    as [(_ & a & q' & _ & _ & Hcalls) | (Hbusy & _)]; [|congruence].
  rewrite Hcalls in Hin. clear Hcalls.
  destruct a as [bv b1 b2 bi bi1 bc bm].
  unfold views_calls, valid_calls, invalid_near_calls in Hin. cbn in Hin.
  destruct bv, b1, b2, bi, bi1, bc, bm; cbn in Hin;
    repeat (destruct Hin as [Hin|Hin]; [subst c; try exact I; reflexivity|]);
    contradiction.
Qed.

End CycleEdges.

(* ===================================================================== *)
(** ** Construction, and the callbacks in sequence *)
(* ===================================================================== *)

Section Lifetime.
Context {ext : Collaborators}.
Implicit Types (w : World) (scanMsg : VelodyneScan) (sink : Sink).

Ltac run :=
  unfold defined, when, orelse, subscribed, publish;
  unfold bind, ret, abort, gets, modify, emit, get_subscription_count;
  cbn beta iota.

(** The constructor in one step: the members it assigns, and the loop of
    lines 142-144 on them. *)
Lemma Convert_ctor_unfold decoder declared w :
  Convert_ctor decoder declared w
  = copy_invalid_intensity 0 (declared_invalid_intensity declared)
      {| node :=
           {| config_ :=
                {| min_range := declared_min_range declared;
                   max_range := declared_max_range declared;
                   view_direction := declared_view_direction declared;
                   view_width := declared_view_width declared;
                   scan_phase := declared_scan_phase declared |};
              num_points_threshold_ := declared_num_points_threshold declared;
              invalid_intensity_array_ :=
                List.repeat 0%float (RawData.getNumLasers decoder);
              data_ :=
                RawData.setParameters decoder
                  (declared_min_range declared) (declared_max_range declared)
                  (declared_view_direction declared) (declared_view_width declared);
              _overflow_buffer := _overflow_buffer (node w);
              save_test_vector_ := declared_save_test_vector declared;
              convert_frame_id_ := 0 |};
         trace :=
           trace w ++
           [call_setParameters
              (declared_min_range declared) (declared_max_range declared)
              (declared_view_direction declared) (declared_view_width declared)];
         queries := queries w |}.
Proof. reflexivity. Qed.

(** X20.  What the constructor leaves, once the parameters are declared
    and the decoder is set up.  If it returns, the start-up value of
    [invalid_intensity] has no more entries than the decoder has lasers,
    and the node holds the start-up values in its configuration, the
    decoder set to the range and view limits of that configuration by one
    call of [setParameters], one intensity threshold per laser (the
    start-up values converted to [float], then zeros), and a dump counter
    of 0.  With more entries than lasers it does not return: [at] throws
    [std::out_of_range] at line 143, after that call of [setParameters]. *)
Theorem Convert_ctor_establishes :
  forall decoder declared w,
  (forall w',
     Convert_ctor decoder declared w = Returns tt w' ->
     (List.length (declared_invalid_intensity declared)
      <= RawData.getNumLasers decoder)%nat /\
     config_ (node w')
     = {| min_range := declared_min_range declared;
          max_range := declared_max_range declared;
          view_direction := declared_view_direction declared;
          view_width := declared_view_width declared;
          scan_phase := declared_scan_phase declared |} /\
     num_points_threshold_ (node w') = declared_num_points_threshold declared /\
     data_ (node w')
     = RawData.setParameters decoder
         (declared_min_range declared) (declared_max_range declared)
         (declared_view_direction declared) (declared_view_width declared) /\
     invalid_intensity_array_ (node w')
     = List.map Cxx.static_cast_float (declared_invalid_intensity declared)
       ++ List.repeat 0%float
            (RawData.getNumLasers decoder
             - List.length (declared_invalid_intensity declared)) /\
     save_test_vector_ (node w') = declared_save_test_vector declared /\
     convert_frame_id_ (node w') = 0 /\
     trace w'
     = trace w ++
       [call_setParameters
          (declared_min_range declared) (declared_max_range declared)
          (declared_view_direction declared) (declared_view_width declared)])
  /\
  ((RawData.getNumLasers decoder
    < List.length (declared_invalid_intensity declared))%nat ->
   exists w',
     Convert_ctor decoder declared w = Aborts OutOfRange w' /\
     trace w'
     = trace w ++
       [call_setParameters
          (declared_min_range declared) (declared_max_range declared)
          (declared_view_direction declared) (declared_view_width declared)]).
Proof.
  intros decoder declared w. rewrite Convert_ctor_unfold.
  match goal with
  | |- context [copy_invalid_intensity 0 ?ds ?w2] =>
      destruct (@copy_invalid_intensity_run ext ds 0%nat w2 (Nat.le_0_l _))
        as (w3 & Hsame & Hcopy)
  end.
  cbn [node invalid_intensity_array_] in Hcopy.
  rewrite List.repeat_length in Hcopy. cbn [Nat.add List.firstn List.app] in Hcopy.
  rewrite skipn_repeat in Hcopy.
  destruct Hsame as (Hc & Ht & Hd & _ & Hs & Hf & Htr & _).
  destruct (Nat.leb_spec (List.length (declared_invalid_intensity declared))
              (RawData.getNumLasers decoder)) as [Hfit|Hlong];
    destruct Hcopy as [Hcopy Harr]; rewrite Hcopy.
  - split; [|intros Hlong; lia].
    intros w' Hrun. injection Hrun as <-.
    rewrite Hc, Ht, Hd, Hs, Hf, Htr, Harr. cbn. repeat split. exact Hfit.
  - split; [intros w' Hrun; discriminate Hrun|].
    intros _. exists w3. split; [reflexivity|]. rewrite Htr. reflexivity.
Qed.

Lemma well_formed_after_segment lasers scanMsg w carry wd :
  well_formed lasers (node w) ->
  well_formed lasers (node (after_segment w scanMsg carry wd)).
Proof.
  unfold well_formed, mirrors, after_segment. cbn.
  destruct (save_test_vector_ (node w)); cbn; auto.
Qed.

(** Each callback that returns keeps the node well formed. *)
Lemma dispatch_well_formed lasers (c : Callback) w w' :
  well_formed lasers (node w) ->
  dispatch c w = Returns tt w' ->
  well_formed lasers (node w').
Proof.
  intros Hw Hrun. destruct c as [p|sink scanMsg]; cbn [dispatch] in Hrun; unfold bind in Hrun.
  - destruct (paramCallback p w) as [r w1|f w1] eqn:Hcall; [|discriminate Hrun].
    injection Hrun as <-.
    pose proof (paramCallback_array_length p w Hcall) as Hlen.
    pose proof (paramCallback_footprint p w) as Hfoot. cbn zeta in Hfoot.
    rewrite Hcall in Hfoot. cbn [world_of] in Hfoot.
    destruct Hw as ((M1 & M2 & M3 & M4) & Hn & _).
    destruct Hfoot as (_ & _ & _ & Hlasers & _ & Hrange).
    unfold well_formed, RawData.getNumLasers in *. rewrite Hlasers, Hlen.
    split; [|auto].
    destruct Hrange as [(_ & Hd & E1 & E2 & E3 & E4) | (_ & Hd)]; unfold mirrors; rewrite Hd.
    + rewrite E1, E2, E3, E4. auto.
    + cbn. auto.
  - destruct (processScan sink scanMsg w) as [L w1|f w1] eqn:Hcall; [|discriminate Hrun].
    injection Hrun as <-.
    pose proof (processScan_node sink scanMsg w) as Hnode. rewrite Hcall in Hnode.
    cbn [world_of] in Hnode.
    destruct (cloud_wanted sink (queries w)).
    + destruct Hnode as (carry & wd & ->). now apply well_formed_after_segment.
    + now rewrite Hnode.
Qed.

(** X21.  From construction on, through any sequence of invocations of
    the two callbacks that return, one after the other, the decoder holds
    the range and view limits of the configuration and the node has
    exactly one intensity threshold for each laser of the decoder it was
    constructed with. *)
Theorem node_stays_well_formed :
  forall decoder declared (cs : list Callback) w0 w1 w2,
  Convert_ctor decoder declared w0 = Returns tt w1 ->
  spin cs w1 = Returns tt w2 ->
  well_formed (RawData.getNumLasers decoder) (node w2).
Proof.
  intros decoder declared cs w0 w1 w2 Hctor Hspin.
  assert (Hw1 : well_formed (RawData.getNumLasers decoder) (node w1)).
  { rewrite Convert_ctor_unfold in Hctor.
    match type of Hctor with
    | copy_invalid_intensity 0 ?ds ?w = _ =>
        destruct (@copy_invalid_intensity_run ext ds 0%nat w (Nat.le_0_l _))
          as (w3 & Hsame & Hcopy)
    end.
    cbn [node invalid_intensity_array_] in Hcopy.
    rewrite List.repeat_length in Hcopy. cbn [Nat.add List.firstn List.app] in Hcopy.
    rewrite skipn_repeat in Hcopy.
    destruct (Nat.leb_spec (List.length (declared_invalid_intensity declared))
                (RawData.getNumLasers decoder)) as [Hfit|Hlong];
      destruct Hcopy as [Hcopy Harr]; rewrite Hcopy in Hctor; [|discriminate Hctor].
    injection Hctor as <-.
    destruct Hsame as (Hc & _ & Hd & _).
    unfold well_formed, mirrors. rewrite Hc, Hd, Harr. cbn.
    rewrite List.length_app, List.length_map, List.repeat_length.
    repeat split. lia. }
  clear Hctor. revert w1 Hw1 Hspin.
  induction cs as [|c rest IH]; intros w1 Hw1 Hspin.
  - injection Hspin as <-. exact Hw1.
  - cbn [spin] in Hspin. unfold bind in Hspin.
    destruct (dispatch c w1) as [[] w1'|f w1'] eqn:Hc; [|discriminate Hspin].
    exact (IH w1' (@dispatch_well_formed _ c w1 w1' Hw1 Hc) Hspin).
Qed.

End Lifetime.

(* ===================================================================== *)
(** ** More concrete runs *)
(* ===================================================================== *)

(** X1 at an update that names [view_width] and then [max_range]:
    [max_range] comes first in the tests of the handler, so it takes its
    new value 100 and [view_width] keeps its prior value 6.25. *)
Lemma first_range_parameter_witness :
  exists r w',
    @paramCallback bench update_view (start node0) = Returns r w' /\
    min_range (config_ (node w')) = 0.5%float /\
    max_range (config_ (node w')) = 100%float /\
    view_direction (config_ (node w')) = 0%float /\
    view_width (config_ (node w')) = 6.25%float.
Proof.
  assert (Hrun : exists r w', @paramCallback bench update_view (start node0) = Returns r w')
    by (eexists _, _; vm_compute; reflexivity).
  destruct Hrun as (r & w' & Hrun). exists r, w'. split; [exact Hrun|].
  pose proof (@paramCallback_first_range_parameter_wins bench _ _ _ _ Hrun) as H.
  cbn in H. destruct H as (Hmin & Hmax & Hdir & Hwidth).
  injection Hmax as Hmax. auto.
Defined.

(** X2 at an update of the point-count threshold, the phase and one
    intensity threshold. *)
Lemma threshold_and_phase_witness :
  exists r w',
    @paramCallback bench update_thresholds (start node0) = Returns r w' /\
    num_points_threshold_ (node w') = 500 /\
    scan_phase (config_ (node w')) = 90%float.
Proof.
  assert (Hrun : exists r w',
            @paramCallback bench update_thresholds (start node0) = Returns r w')
    by (eexists _, _; vm_compute; reflexivity).
  destruct Hrun as (r & w' & Hrun). exists r, w'. split; [exact Hrun|].
  pose proof (@paramCallback_assigns_threshold_and_phase bench _ _ _ _ Hrun) as H.
  cbn in H. destruct H as (Hthreshold & Hphase).
  injection Hthreshold as Hthreshold. injection Hphase as Hphase. auto.
Defined.

(** X3 at the same update on a node with two lasers and thresholds 5 and
    7: the array holds the new first threshold and a zero. *)
Lemma zero_padding_witness :
  exists r w',
    @paramCallback bench update_thresholds (start node_intensity) = Returns r w' /\
    invalid_intensity_array_ (node w') = [1.5%float; 0%float].
Proof.
  assert (Hrun : exists r w',
            @paramCallback bench update_thresholds (start node_intensity) = Returns r w')
    by (eexists _, _; vm_compute; reflexivity).
  destruct Hrun as (r & w' & Hrun). exists r, w'. split; [exact Hrun|].
  destruct (@paramCallback_zero_pads_thresholds bench _ _ _ _ Hrun) as (_ & Harr).
  rewrite Harr. vm_compute. reflexivity.
Defined.

(** X4 at an update with three thresholds on a node with two lasers: the
    call throws, the two thresholds that fit are in the array, and the
    phase is 90 degrees already. *)
Lemma too_many_thresholds_witness :
  exists w',
    @paramCallback bench update_long (start node0) = Aborts OutOfRange w' /\
    invalid_intensity_array_ (node w') = [1.5%float; 2.5%float] /\
    scan_phase (config_ (node w')) = 90%float.
Proof.
  destruct (@paramCallback_too_many_thresholds bench update_long (start node0))
    as (w' & Hrun & Harr & Hphase).
  - unfold readable, typed_as. cbn. repeat split; discriminate.
  - cbn. lia.
  - exists w'. split; [exact Hrun|]. split.
    + rewrite Harr. vm_compute. reflexivity.
    + cbn in Hphase. injection Hphase as Hphase. auto.
Defined.

(** X6 at the update of [view_width] and [max_range]: the decoder has the
    new [max_range] too. *)
Lemma decoder_in_step_witness :
  mirrors node0 /\
  mirrors (node (world_of (@paramCallback bench update_view (start node0)))).
Proof.
  assert (H0 : mirrors node0) by (repeat split).
  split; [exact H0|].
  exact (@paramCallback_keeps_decoder_in_step bench update_view (start node0) H0).
Defined.

(** X8 at a second [scan_phase] after a first one: the call does what it
    does without the second. *)
Lemma repeated_parameter_witness :
  @paramCallback bench ([phase_90] ++ phase_45 :: [calibration_path]) (start node0)
  = @paramCallback bench ([phase_90] ++ [calibration_path]) (start node0).
Proof.
  apply (@paramCallback_ignores_unknown_and_repeated bench).
  right. exists phase_90. split; [left; reflexivity | reflexivity].
Defined.

(** X9 at two batches in a row with a point waiting in the overflow
    buffer: that point, then the points of the two batches in the order
    they were decoded. *)
Lemma decode_order_witness :
  exists scans w',
    @segment_all bench [batch batch_a; batch batch_b] (start node_carry) = Returns scans w' /\
    List.concat scans ++ List.rev (points (_overflow_buffer (node w')))
    = pt 50 1 0.25 :: batch_a ++ batch_b.
Proof.
  assert (Hrun : exists scans w',
            @segment_all bench [batch batch_a; batch batch_b] (start node_carry)
            = Returns scans w')
    by (eexists _, _; vm_compute; reflexivity).
  destruct Hrun as (scans & w' & Hrun). exists scans, w'. split; [exact Hrun|].
  exact (@segmenter_keeps_decode_order bench _ _ _ _ Hrun).
Defined.

(** X10 at the batch 35000, 100, 200 with phase 0: the closed scan ends
    on 35000, and 100 and 200 wait in the overflow buffer. *)
Lemma cut_at_the_phase_witness :
  exists closed w',
    @segment bench (batch batch_a) (start node0) = Returns closed w' /\
    closed = [pt 35000 1 0.5] /\
    points (_overflow_buffer (node w')) = [pt 200 1 1; pt 100 1 0.75] /\
    width (_overflow_buffer (node w')) = 2 /\
    height (_overflow_buffer (node w')) = 1.
Proof.
  assert (Hrun : exists closed w',
            @segment bench (batch batch_a) (start node0) = Returns closed w' /\
            closed = [pt 35000 1 0.5] /\
            points (_overflow_buffer (node w')) = [pt 200 1 1; pt 100 1 0.75])
    by (eexists _, _; split; [vm_compute; reflexivity|];
        split; [vm_compute; reflexivity|]; vm_compute; reflexivity).
  destruct Hrun as (closed & w' & Hrun & Hclosed & Hcarry).
  exists closed, w'. split; [exact Hrun|]. split; [exact Hclosed|]. split; [exact Hcarry|].
  destruct (@segment_cuts_at_the_phase bench (batch batch_a) (start node0) 0 closed w'
              eq_refl Hrun) as (_ & _ & Hwidth & Hheight).
  rewrite Hcarry in Hwidth. split; [exact Hwidth | exact Hheight].
Defined.



(** X13 at a node that saves test vectors, at dump number 7: after a
    cycle with a subscriber on every output the counter is 8. *)
Lemma dump_counter_witness :
  convert_frame_id_
    (node (world_of (@processScan bench everyone (batch batch_a) (start node_saving))))
  = 8.
Proof.
  destruct (@processScan_leaves_configuration bench everyone (batch batch_a)
              (start node_saving)) as (_ & _ & _ & _ & _ & _ & Hcounter).
  destruct Hcounter as (_ & Hcounter); [cbn; lia|].
  exact Hcounter.
Defined.

(** X15 at a cycle with a subscriber on every output: the plain output
    carries the two points in range. *)
Lemma published_views_witness :
  exists L w',
    @processScan bench everyone (batch mixed) (start node0) = Returns L w' /\
    valid_points_xyziradt L = mixed_valid /\
    List.In (call_publish velodyne_points_pub_ (@PointCloud2_XYZIR bench mixed_valid))
      (calls_of (@processScan bench everyone (batch mixed)) (start node0)) /\
    List.map azimuth (points mixed_valid) = [100; 35900].
Proof.
  assert (Hrun : exists L w',
            @processScan bench everyone (batch mixed) (start node0) = Returns L w')
    by (eexists _, _; vm_compute; reflexivity).
  assert (Hin : List.In
                  (call_publish velodyne_points_pub_ (@PointCloud2_XYZIR bench mixed_valid))
                  (calls_of (@processScan bench everyone (batch mixed)) (start node0))).
  { vm_compute. do 3 right. left. reflexivity. }
  destruct Hrun as (L & w' & Hrun). exists L, w'. split; [exact Hrun|].
  destruct (@processScan_publishes_its_views bench everyone (batch mixed) (start node0)
              L w' _ _ Hrun Hin) as (Hmsg & Hvalid).
  injection Hmsg as Hmsg.
  split; [symmetry; exact Hmsg|]. split; [exact Hin | reflexivity].
Defined.


(** X17 at a sink with one subscriber, on the marker output, and a point
    waiting in the overflow buffer. *)
Lemma marker_only_witness :
  exists L w',
    @processScan bench (only marker_array_pub_) (batch scenario6) (start node_carry)
    = Returns L w' /\
    node w' = node_carry /\
    calls_of (@processScan bench (only marker_array_pub_) (batch scenario6))
      (start node_carry)
    = [call_publish marker_array_pub_ (MarkerArray (scan_header (batch scenario6)))].
Proof.
  apply (@marker_is_published_without_clouds bench (only marker_array_pub_)
           (batch scenario6) (start node_carry)).
  unfold marker_only, unwanted. repeat split; intros k; cbn; lia.
Defined.


(** X19 at a sink whose subscribers arrive after the fourth query: the
    range filter is called, on the new cloud. *)
Lemma late_subscriber_witness :
  List.In (call_extractValidPoints new_PointCloud 0.5 130)
    (calls_of (@processScan bench latecomers (batch scenario6)) (start node0)) /\
  (forall pk, ~ List.In (call_unpack_all pk)
                (calls_of (@processScan bench latecomers (batch scenario6)) (start node0))).
Proof.
  assert (Hin : List.In (call_extractValidPoints new_PointCloud 0.5 130)
                  (calls_of (@processScan bench latecomers (batch scenario6)) (start node0))).
  { vm_compute. left. reflexivity. }
  split; [exact Hin|].
  intros pk Hpk.
  exact (@late_subscriber_gets_the_empty_scan bench latecomers (batch scenario6)
           (start node0) (call_unpack_all pk) eq_refl Hpk).
Defined.

(** X21 at a node constructed for two lasers with thresholds 5 and 7, then
    reconfigured, fed a scan, and reconfigured again. *)
Lemma well_formed_session_witness :
  exists w1 w2,
    @Convert_ctor bench decoder2 declared0 (start blank) = Returns tt w1 /\
    node w1 = node_intensity /\
    spin session w1 = Returns tt w2 /\
    well_formed 2 (node w2).
Proof.
  assert (Hrun : exists w1 w2,
            @Convert_ctor bench decoder2 declared0 (start blank) = Returns tt w1 /\
            node w1 = node_intensity /\
            spin session w1 = Returns tt w2)
    by (eexists _, _; split; [vm_compute; reflexivity|];
        split; [vm_compute; reflexivity|]; vm_compute; reflexivity).
  destruct Hrun as (w1 & w2 & Hctor & Hnode & Hspin).
  exists w1, w2. split; [exact Hctor|]. split; [exact Hnode|]. split; [exact Hspin|].
  exact (@node_stays_well_formed bench decoder2 declared0 session _ _ _ Hctor Hspin).
Defined.

(** X20 at a decoder with two lasers: with the thresholds 5 and 7 the
    constructor leaves them in the array and the limits in the decoder;
    with three thresholds it throws. *)
Lemma constructor_witness :
  (exists w',
     @Convert_ctor bench decoder2 declared0 (start blank) = Returns tt w' /\
     invalid_intensity_array_ (node w') = [5%float; 7%float] /\
     data_ (node w') = RawData.mk 0.5 130 0 6.25 2) /\
  (exists w',
     @Convert_ctor bench decoder2 declared_long (start blank) = Aborts OutOfRange w').
Proof.
  split.
  - assert (Hrun : exists w',
              @Convert_ctor bench decoder2 declared0 (start blank) = Returns tt w')
      by (eexists; vm_compute; reflexivity).
    destruct Hrun as (w' & Hrun). exists w'. split; [exact Hrun|].
    destruct (@Convert_ctor_establishes bench decoder2 declared0 (start blank))
      as (Hleft & _).
    destruct (Hleft w' Hrun) as (_ & _ & _ & Hdata & Harr & _).
    split; [rewrite Harr; vm_compute; reflexivity | exact Hdata].
  - destruct (@Convert_ctor_establishes bench decoder2 declared_long (start blank))
      as (_ & Hthrows).
    destruct Hthrows as (w' & Hrun & _); [cbn; lia|].
    exists w'. exact Hrun.
Defined.

(* ===================================================================== *)
(** ** A reconfiguration inside a cycle *)
(* ===================================================================== *)

Section Isolation.
Context {ext : Collaborators}.
Implicit Types (w : World) (scanMsg : VelodyneScan) (sink : Sink).


End Isolation.

